(** * DYMO Label Web Editor: field discovery and form synchronisation

    A shallow embedding of [js/app.js] and the properties its
    specification states about it.

    Conventions of the embedding.
    - JavaScript strings are modelled as [string]; the case mapping and the
      white space test are the ASCII ones.  The properties of the names
      of the form (C2, C8) and of [formatFieldName] (X11, X12) are stated
      for ASCII strings ([Domain.plainName], [Domain.asciiString]).
    - The plain objects [state.objectTypes] and [state.initialValues], used
      by the program as dictionaries, are [gmap string string]; field names
      are taken not to collide with the properties every JavaScript object
      inherits ([constructor], [toString], [__proto__], ...).  What the
      extractor and the snapshots record (C3, X3) is stated for keys other
      than [__proto__], the one key an assignment to a plain object does
      not record.
    - The DOM form ([elements.labelForm]) is the list of its controls, each
      carrying its [data-field-name]; the markup [generateForm] writes for
      a control denotes that control when the field name is free of markup
      characters ([Domain.plainName]) and the text of a text input is one a
      textarea keeps as it is ([Domain.verbatimText]).  The properties of
      the controls [generateForm] builds (C2, C8, X4, X20) are stated for
      such names and texts.  The user's edits are covered by quantifying
      over the controls' contents.
    - The click handlers are [updatePreview], [printLabels] and [clearForm]
      themselves; the debounced listeners of the controls call
      [updatePreview] later and hold no state that these functions read.
    - Everything the program obtains from its host (the XML parser, the
      collation order, the label framework) is a field of [Host].
    - Every function returns the new application state together with the
      list of observable events it produced, in order of occurrence. *)

From Stdlib Require Import ZArith Ascii String List Permutation Sorted Lia.
From stdpp Require Import base option list strings pretty gmap.

Import ListNotations.
Local Open Scope string_scope.
Local Open Scope Z_scope.
Set Warnings "-register-all".

(** ** Strings *)

Module Js.

Definition isLower (c : ascii) : bool :=
  ((97 <=? nat_of_ascii c) && (nat_of_ascii c <=? 122))%nat.

Definition upperChar (c : ascii) : ascii :=
  if isLower c then ascii_of_nat (nat_of_ascii c - 32) else c.

(** [String.prototype.toUpperCase] on ASCII strings; outside ASCII the
    mapping of JavaScript is the Unicode one. *)
Fixpoint toUpperCase (s : string) : string :=
  match s with
  | EmptyString => EmptyString
  | String c s' => String (upperChar c) (toUpperCase s')
  end.

(** [String.prototype.startsWith] *)
Fixpoint startsWith (s p : string) {struct p} : bool :=
  match p, s with
  | EmptyString, _ => true
  | String _ _, EmptyString => false
  | String a p', String b s' => Ascii.eqb a b && startsWith s' p'
  end.

Fixpoint dropString (n : nat) (s : string) : string :=
  match n, s with
  | O, _ => s
  | S n', String _ s' => dropString n' s'
  | S _, EmptyString => EmptyString
  end.

(** [String.prototype.endsWith]: the last [length suffix] characters of
    [s] are compared with [suffix]. *)
Definition endsWith (s suffix : string) : bool :=
  ((String.length suffix <=? String.length s)%nat)
  && String.eqb (dropString (String.length s - String.length suffix) s) suffix.

Definition isWhiteSpace (c : ascii) : bool :=
  let n := nat_of_ascii c in
  ((9 <=? n) && (n <=? 13) || (n =? 32))%nat.

Definition digitValue (c : ascii) : option Z :=
  let n := nat_of_ascii c in
  if ((48 <=? n) && (n <=? 57))%nat then Some (Z.of_nat n - 48) else None.

Fixpoint trimStart (s : string) : string :=
  match s with
  | String c s' => if isWhiteSpace c then trimStart s' else s
  | EmptyString => EmptyString
  end.

(** Value of the longest prefix of decimal digits, with the number of
    digits consumed. *)
Fixpoint digitsPrefix (acc : Z) (count : nat) (s : string) : Z * nat :=
  match s with
  | String c s' =>
      match digitValue c with
      | Some d => digitsPrefix (10 * acc + d) (S count) s'
      | None => (acc, count)
      end
  | EmptyString => (acc, count)
  end.

(** [parseInt(s, 10)]; [None] stands for [NaN].  The value is the exact
    integer, which is the number JavaScript returns up to 2^53 in size;
    above that the number of JavaScript is the nearest double. *)
Definition parseInt (s : string) : option Z :=
  let t := trimStart s in
  let '(sign, body) :=
    match t with
    | String "-" r => (-1, r)
    | String "+" r => (1, r)
    | _ => (1, t)
    end in
  match digitsPrefix 0 0 body with
  | (_, O) => None
  | (v, S _) => Some (sign * v)
  end.

(** [value || fallback] on strings: the empty string is falsy. *)
Definition orElse (value fallback : string) : string :=
  if String.eqb value "" then fallback else value.

End Js.

(** ** Exceptions *)

(** Outcome of a call that may throw. *)
Inductive result (A : Type) : Type :=
  | Ok (value : A)
  | Throw (message : string).
Arguments Ok {A} value.
Arguments Throw {A} message.

(** ** The label handle of the framework *)

(** Modelled from the spec: the document handle of the label framework,
    which is not part of the program.  The program reaches a loaded label
    only through [getObjectNames], [getObjectText], [setObjectText],
    [renderAsync] and [print] (section 6 of the specification:
    listFieldNames, getFieldText, setFieldText, renderPreview, print, the
    text accessors raising for a field they do not support).  The handle
    is the names it enumerates and the text it holds per object.  The two
    are independent: an enumerated object may lack text accessors, and
    the enumeration may be incomplete. *)
Record Label : Type := mkLabel {
  names : list string;
  texts : gmap string string
}.

Definition getObjectNames (l : Label) : list string := names l.

(** Modelled from the spec: [getFieldText], which returns the text of an
    object the handle holds and raises for any other name. *)
Definition getObjectText (l : Label) (name : string) : result string :=
  match texts l !! name with
  | Some t => Ok t
  | None => Throw "object not found"
  end.

(** Modelled from the spec: [setFieldText], which replaces the text of an
    object the handle holds, leaves every other object as it is, and
    raises for any other name. *)
Definition setObjectText (l : Label) (name value : string) : result Label :=
  match texts l !! name with
  | Some _ => Ok (mkLabel (names l) (<[name := value]> (texts l)))
  | None => Throw "object not found"
  end.

(** ** Observable events *)

Inductive Event : Type :=
  | ConsoleWarn (text : string)
  | ConsoleError (text : string)
  | Alert (text : string)
  | CallSetObjectText (name value : string)
  | CallRender (seen : Label)
  | CallPrint (seen : Label) (printerName printParamsXml labelSetXml : string)
  | SetTimeout (delay : Z).

(** ** The XML document *)

Module Dom.

Inductive Node : Type :=
  | Element (tagName : string) (childNodes : list Node)
  | Text (data : string)
  | Comment (data : string).

(** Children of the document node. *)
Definition Document : Type := list Node.

(** The element itself followed by the elements below it, in document
    order; nothing for a node that is not an element. *)
Fixpoint elementsOf (n : Node) : list Node :=
  match n with
  | Element _ children =>
      n :: (fix below (l : list Node) : list Node :=
              match l with
              | [] => []
              | c :: l' => (elementsOf c ++ below l')%list
              end) children
  | _ => []
  end.

Definition descendants (n : Node) : list Node :=
  match n with
  | Element _ children => flat_map elementsOf children
  | _ => []
  end.

Definition tagNameOf (n : Node) : string :=
  match n with
  | Element t _ => t
  | _ => ""
  end.

Definition tagMatches (pattern : string) (n : Node) : bool :=
  String.eqb pattern "*" || String.eqb (tagNameOf n) pattern.

(** [document.getElementsByTagName] *)
Definition documentElementsByTagName (doc : Document) (pattern : string)
  : list Node :=
  List.filter (tagMatches pattern) (flat_map elementsOf doc).

(** [element.getElementsByTagName]: the element itself is not included. *)
Definition getElementsByTagName (n : Node) (pattern : string) : list Node :=
  List.filter (tagMatches pattern) (descendants n).

(** [textContent] of an element: the text below it, comments left out. *)
Fixpoint textContent (n : Node) : string :=
  match n with
  | Element _ children =>
      (fix below (l : list Node) : string :=
         match l with
         | [] => ""
         | c :: l' => textContent c ++ below l'
         end) children
  | Text d => d
  | Comment _ => ""
  end.

(** What [DOMParser.parseFromString(_, "text/xml")] can do: build the
    document of well-formed input; report ill-formed input in band, as a
    document whose only child is a [parsererror] element describing the
    error (the parser of a browser does not throw for ill-formed input);
    or fail with an exception, as when no parser is at hand. *)
Inductive ParseResult : Type :=
  | Parsed (doc : Document)
  | ParserError (detail : list Node)
  | ParseThrows (message : string).

Definition documentOf (r : ParseResult) : result Document :=
  match r with
  | Parsed doc => Ok doc
  | ParserError detail => Ok [Element "parsererror" detail]
  | ParseThrows message => Throw message
  end.

End Dom.

(** ** Field extractor ([parseObjectTypes]) *)

(** The entry one element contributes to the loop of [parseObjectTypes]:
    its tag ends in "Object" and it has a "Name" element below it, whose
    text is the key. *)
Definition declaration (node : Dom.Node) : option (string * string) :=
  if Js.endsWith (Dom.tagNameOf node) "Object" then
    match head (Dom.getElementsByTagName node "Name") with
    | Some nameNode => Some (Dom.textContent nameNode, Dom.tagNameOf node)
    | None => None
    end
  else None.

(** One iteration of the loop, for a key other than [__proto__] (which
    an assignment to a plain object does not record). *)
Definition recordType (types : gmap string string) (node : Dom.Node)
  : gmap string string :=
  match declaration node with
  | Some (name, tag) => <[name := tag]> types
  | None => types
  end.

Definition collectTypes (doc : Dom.Document) : gmap string string :=
  foldl recordType ∅ (Dom.documentElementsByTagName doc "*").

(** [parseObjectTypes], as a function of what the parser did.  Only the
    parser can throw inside the [try], and it does so before [types]
    receives an entry. *)
Definition parseObjectTypesOf (r : Dom.ParseResult)
  : gmap string string * list Event :=
  match Dom.documentOf r with
  | Ok doc => (collectTypes doc, [])
  | Throw _ => (∅, [ConsoleWarn "Failed to parse label XML types"])
  end.

(** ** The host *)

(** What the program takes from its environment: the browser's XML parser
    and collation order, and the label framework ([dymo.label.framework]
    and the handles it opens).  [createLabelWriterPrintParamsXml] is
    optional, as the program tests for it before the call. *)
Record Host : Type := mkHost {
  parseFromString : string -> Dom.ParseResult;
  localeCompare : string -> string -> Z;
  openLabelXml : string -> result Label;
  renderAsync : Label -> result string;
  print : Label -> string -> string -> string -> result unit;
  createLabelWriterPrintParamsXml : option (Z -> string)
}.

(** ** Application state and page elements *)

(** A control of the generated form, with its [data-field-name]. *)
Inductive Control : Type :=
  | Checkbox (fieldName : string) (checked : bool)
  | Textarea (fieldName : string) (value : string).

Definition fieldNameOf (c : Control) : string :=
  match c with
  | Checkbox n _ => n
  | Textarea n _ => n
  end.


Inductive Display : Type := DisplayNone | DisplayBlock.

Record State : Type := mkState {
  label : option Label;
  labelXml : option string;
  objectNames : list string;
  objectTypes : gmap string string;
  initialValues : gmap string string;
  isServiceRunning : bool;
  selectedPrinter : option string
}.

Record Elements : Type := mkElements {
  status : string * string;
  labelFile : string;
  fileError : string;
  fileErrorDisplay : Display;
  formCard : Display;
  labelForm : list Control;
  noFieldsMessage : string;
  noFieldsMessageDisplay : Display;
  previewCard : Display;
  previewImageSrc : string;
  previewImageAlt : string;
  printCard : Display;
  printerSelect : string;
  printQuantity : string
}.

Record App : Type := mkApp {
  state : State;
  elements : Elements
}.

(** *** Field updates *)

Definition setLabel (v : option Label) (s : State) : State :=
  mkState v (labelXml s) (objectNames s) (objectTypes s) (initialValues s)
          (isServiceRunning s) (selectedPrinter s).
Definition setLabelXml (v : option string) (s : State) : State :=
  mkState (label s) v (objectNames s) (objectTypes s) (initialValues s)
          (isServiceRunning s) (selectedPrinter s).
Definition setObjectNames (v : list string) (s : State) : State :=
  mkState (label s) (labelXml s) v (objectTypes s) (initialValues s)
          (isServiceRunning s) (selectedPrinter s).
Definition setObjectTypes (v : gmap string string) (s : State) : State :=
  mkState (label s) (labelXml s) (objectNames s) v (initialValues s)
          (isServiceRunning s) (selectedPrinter s).
Definition setInitialValues (v : gmap string string) (s : State) : State :=
  mkState (label s) (labelXml s) (objectNames s) (objectTypes s) v
          (isServiceRunning s) (selectedPrinter s).

Definition setStatus (v : string * string) (e : Elements) : Elements :=
  mkElements v (labelFile e) (fileError e) (fileErrorDisplay e) (formCard e)
    (labelForm e) (noFieldsMessage e) (noFieldsMessageDisplay e)
    (previewCard e) (previewImageSrc e) (previewImageAlt e) (printCard e)
    (printerSelect e) (printQuantity e).
Definition setLabelFile (v : string) (e : Elements) : Elements :=
  mkElements (status e) v (fileError e) (fileErrorDisplay e) (formCard e)
    (labelForm e) (noFieldsMessage e) (noFieldsMessageDisplay e)
    (previewCard e) (previewImageSrc e) (previewImageAlt e) (printCard e)
    (printerSelect e) (printQuantity e).
Definition setFileError (v : string) (e : Elements) : Elements :=
  mkElements (status e) (labelFile e) v (fileErrorDisplay e) (formCard e)
    (labelForm e) (noFieldsMessage e) (noFieldsMessageDisplay e)
    (previewCard e) (previewImageSrc e) (previewImageAlt e) (printCard e)
    (printerSelect e) (printQuantity e).
Definition setFileErrorDisplay (v : Display) (e : Elements) : Elements :=
  mkElements (status e) (labelFile e) (fileError e) v (formCard e)
    (labelForm e) (noFieldsMessage e) (noFieldsMessageDisplay e)
    (previewCard e) (previewImageSrc e) (previewImageAlt e) (printCard e)
    (printerSelect e) (printQuantity e).
Definition setFormCard (v : Display) (e : Elements) : Elements :=
  mkElements (status e) (labelFile e) (fileError e) (fileErrorDisplay e) v
    (labelForm e) (noFieldsMessage e) (noFieldsMessageDisplay e)
    (previewCard e) (previewImageSrc e) (previewImageAlt e) (printCard e)
    (printerSelect e) (printQuantity e).
Definition setLabelForm (v : list Control) (e : Elements) : Elements :=
  mkElements (status e) (labelFile e) (fileError e) (fileErrorDisplay e)
    (formCard e) v (noFieldsMessage e) (noFieldsMessageDisplay e)
    (previewCard e) (previewImageSrc e) (previewImageAlt e) (printCard e)
    (printerSelect e) (printQuantity e).
Definition setNoFieldsMessage (v : string) (e : Elements) : Elements :=
  mkElements (status e) (labelFile e) (fileError e) (fileErrorDisplay e)
    (formCard e) (labelForm e) v (noFieldsMessageDisplay e)
    (previewCard e) (previewImageSrc e) (previewImageAlt e) (printCard e)
    (printerSelect e) (printQuantity e).
Definition setNoFieldsMessageDisplay (v : Display) (e : Elements) : Elements :=
  mkElements (status e) (labelFile e) (fileError e) (fileErrorDisplay e)
    (formCard e) (labelForm e) (noFieldsMessage e) v
    (previewCard e) (previewImageSrc e) (previewImageAlt e) (printCard e)
    (printerSelect e) (printQuantity e).
Definition setPreviewCard (v : Display) (e : Elements) : Elements :=
  mkElements (status e) (labelFile e) (fileError e) (fileErrorDisplay e)
    (formCard e) (labelForm e) (noFieldsMessage e) (noFieldsMessageDisplay e)
    v (previewImageSrc e) (previewImageAlt e) (printCard e)
    (printerSelect e) (printQuantity e).
Definition setPreviewImageSrc (v : string) (e : Elements) : Elements :=
  mkElements (status e) (labelFile e) (fileError e) (fileErrorDisplay e)
    (formCard e) (labelForm e) (noFieldsMessage e) (noFieldsMessageDisplay e)
    (previewCard e) v (previewImageAlt e) (printCard e)
    (printerSelect e) (printQuantity e).
Definition setPreviewImageAlt (v : string) (e : Elements) : Elements :=
  mkElements (status e) (labelFile e) (fileError e) (fileErrorDisplay e)
    (formCard e) (labelForm e) (noFieldsMessage e) (noFieldsMessageDisplay e)
    (previewCard e) (previewImageSrc e) v (printCard e)
    (printerSelect e) (printQuantity e).
Definition setPrintCard (v : Display) (e : Elements) : Elements :=
  mkElements (status e) (labelFile e) (fileError e) (fileErrorDisplay e)
    (formCard e) (labelForm e) (noFieldsMessage e) (noFieldsMessageDisplay e)
    (previewCard e) (previewImageSrc e) (previewImageAlt e) v
    (printerSelect e) (printQuantity e).

Definition setPrintQuantity (v : string) (e : Elements) : Elements :=
  mkElements (status e) (labelFile e) (fileError e) (fileErrorDisplay e)
    (formCard e) (labelForm e) (noFieldsMessage e) (noFieldsMessageDisplay e)
    (previewCard e) (previewImageSrc e) (previewImageAlt e) (printCard e)
    (printerSelect e) v.

Definition onState (f : State -> State) (app : App) : App :=
  mkApp (f (state app)) (elements app).
Definition onElements (f : Elements -> Elements) (app : App) : App :=
  mkApp (state app) (f (elements app)).

(** The user types [text] into the quantity input. *)
Definition typeQuantity (text : string) (app : App) : App :=
  onElements (setPrintQuantity text) app.

(** ** [Array.prototype.sort] with a comparator

    The sort is stable; for a comparator that is a total preorder its
    result is the one list that is a sorted rearrangement of the input
    keeping equal elements in their input order, which is what insertion
    from the right computes. *)
Fixpoint insertSorted (cmp : string -> string -> Z) (x : string)
  (l : list string) : list string :=
  match l with
  | [] => [x]
  | y :: l' => if cmp x y <=? 0 then x :: l else y :: insertSorted cmp x l'
  end.

Definition arraySort (cmp : string -> string -> Z) (l : list string)
  : list string :=
  foldr (insertSorted cmp) [] l.

Section Program.

Context (host : Host).

Definition parseObjectTypes (xmlString : string)
  : gmap string string * list Event :=
  parseObjectTypesOf (parseFromString host xmlString).

(** *** Small helpers *)

Definition updateStatus (type message : string) (app : App) : App :=
  onElements (setStatus (type, message)) app.

Definition showFileError (message : string) (app : App) : App :=
  onElements (fun e => setFileErrorDisplay DisplayBlock (setFileError message e))
             app.

Definition hideFileError (app : App) : App :=
  onElements (setFileErrorDisplay DisplayNone) app.

(** *** [generateForm] *)

Definition isIgnored (name : string) : bool :=
  Js.startsWith (Js.toUpperCase name) "IGNORE".

Definition editableNames (names : list string) : list string :=
  arraySort (localeCompare host)
            (List.filter (fun name => negb (isIgnored name)) names).

(** [state.objectTypes[name] || 'Unknown'] *)
Definition typeOf (types : gmap string string) (name : string) : string :=
  match types !! name with
  | Some t => Js.orElse t "Unknown"
  | None => "Unknown"
  end.

Definition isImageType (type : string) : bool :=
  String.eqb type "ImageObject" || String.eqb type "GraphicObject".

(** [state.label.getObjectText(name) || ''] inside its [try]; without a
    label the property access throws and the value stays empty. *)
Definition currentValueOf (s : State) (name : string) : string :=
  match label s with
  | Some l =>
      match getObjectText l name with
      | Ok t => Js.orElse t ""
      | Throw _ => ""
      end
  | None => ""
  end.

(** The control [generateForm] builds for one name: a checkbox, checked
    when the current value is not empty, or a textarea holding the current
    value.  The control is read back from the markup the code writes:
    it is bound to [name] when the name, written unescaped, is free of
    markup characters, and the textarea holds the current value when that
    neither begins with a line feed nor has a carriage return or NUL in
    it. *)
Definition makeControl (s : State) (name : string) : Control :=
  let type := typeOf (objectTypes s) name in
  let currentValue := currentValueOf s name in
  if isImageType type
  then Checkbox name (0 <? String.length currentValue)%nat
  else Textarea name currentValue.

Definition generateForm (names : list string) (app : App) : App :=
  onElements
    (setLabelForm (map (makeControl (state app)) (editableNames names)))
    app.

(** *** The synchronisation pass *)

(** One [setObjectText] call inside its [try]; [updatePreview] logs a
    warning in the [catch], [printLabels] does not. *)
Definition trySetObjectText (warn : bool) (l : Label) (name value : string)
  : Label * list Event :=
  match setObjectText l name value with
  | Ok l' => (l', [CallSetObjectText name value])
  | Throw _ =>
      (l, CallSetObjectText name value ::
          (if warn then [ConsoleWarn ("Could not set text for: " ++ name)]
           else []))
  end.

Definition syncInput (warn : bool) (snapshots : gmap string string)
  (l : Label) (input : Control) : Label * list Event :=
  match input with
  | Checkbox name true =>
      match snapshots !! name with
      | Some val =>
          if String.eqb val "" then (l, [])
          else trySetObjectText warn l name val
      | None => (l, [])
      end
  | Checkbox name false => trySetObjectText warn l name ""
  | Textarea name value => trySetObjectText warn l name value
  end.

Fixpoint syncPass (warn : bool) (snapshots : gmap string string)
  (l : Label) (inputs : list Control) : Label * list Event :=
  match inputs with
  | [] => (l, [])
  | input :: rest =>
      let '(l1, events1) := syncInput warn snapshots l input in
      let '(l2, events2) := syncPass warn snapshots l1 rest in
      (l2, (events1 ++ events2)%list)
  end.

(** *** [updatePreview] *)

Definition updatePreview (app : App) : App * list Event :=
  match label (state app) with
  | None => (app, [])
  | Some l =>
      let '(l', events) :=
        syncPass true (initialValues (state app)) l
                 (labelForm (elements app)) in
      let app1 := onState (setLabel (Some l')) app in
      match renderAsync host l' with
      | Ok pngBase64 =>
          (onElements
             (fun e => setPreviewCard DisplayBlock
                         (setPreviewImageSrc
                            ("data:image/png;base64," ++ pngBase64) e))
             app1,
           (events ++ [CallRender l'])%list)
      | Throw message =>
          (onElements
             (fun e => setPreviewCard DisplayBlock
                         (setPreviewImageAlt
                            ("Preview unavailable: " ++ message)
                            (setPreviewImageSrc "" e)))
             app1,
           (events ++ [CallRender l'; ConsoleError "Preview error:"])%list)
      end
  end.

(** *** [printLabels] *)

Definition printParamsFor (quantity : Z) : string :=
  match createLabelWriterPrintParamsXml host with
  | Some create => create quantity
  | None => ""
  end.

Definition connectedMessage : string := "DYMO Web Service connected".

Definition printLabels (app : App) : App * list Event :=
  match label (state app) with
  | None => (app, [Alert "No label loaded"])
  | Some l =>
      let printerName := printerSelect (elements app) in
      if String.eqb printerName "" then
        (app, [Alert "Please select a printer"])
      else
        match Js.parseInt (printQuantity (elements app)) with
        | None => (app, [Alert "Please enter a valid quantity"])
        | Some quantity =>
            if quantity <? 1 then
              (app, [Alert "Please enter a valid quantity"])
            else
              let app0 := updateStatus "checking" "Printing..." app in
              let '(l', events) :=
                syncPass false (initialValues (state app0)) l
                         (labelForm (elements app0)) in
              let app1 := onState (setLabel (Some l')) app0 in
              let printParamsXml := printParamsFor quantity in
              match print host l' printerName printParamsXml "" with
              | Ok _ =>
                  (updateStatus "connected"
                     ("Successfully sent print job (" ++ pretty quantity
                      ++ " copies) to " ++ printerName) app1,
                   (events ++ [CallPrint l' printerName printParamsXml "";
                               SetTimeout 3000])%list)
              | Throw message =>
                  (updateStatus "connected" connectedMessage app1,
                   (events ++ [CallPrint l' printerName printParamsXml "";
                               Alert ("Print error: " ++ message);
                               ConsoleError "Print error:"])%list)
              end
        end
  end.

(** *** [loadLabel] *)

(** One iteration of the loop that stores the initial values, for a
    key other than [__proto__]. *)
Definition storeInitialValue (l : Label) (values : gmap string string)
  (name : string) : gmap string string :=
  match getObjectText l name with
  | Ok t => <[name := Js.orElse t ""]> values
  | Throw _ => values
  end.

Definition noFieldsText : string :=
  "No editable fields found, or this file type structure allows no variable editing.".

Definition loadLabel (xml : string) (app : App) : App * list Event :=
  match openLabelXml host xml with
  | Throw message =>
      (showFileError ("Error parsing label file: " ++ message) app,
       [ConsoleError "Label parsing error:"])
  | Ok l =>
      let names := getObjectNames l in
      let '(types, log) := parseObjectTypes xml in
      let values := foldl (storeInitialValue l) ∅ names in
      let app1 :=
        onState (fun s => setInitialValues values
                            (setObjectTypes types
                               (setObjectNames names
                                  (setLabelXml (Some xml)
                                     (setLabel (Some l) s))))) app in
      if (length names =? 0)%nat then
        let app2 :=
          onElements
            (fun e => setPrintCard DisplayBlock
                        (setPreviewCard DisplayBlock
                           (setFormCard DisplayNone
                              (setNoFieldsMessageDisplay DisplayBlock
                                 (setNoFieldsMessage noFieldsText e)))))
            app1 in
        let '(app3, events) := updatePreview app2 in
        (app3, (log ++ events)%list)
      else
        let app2 :=
          onElements
            (fun e => setPrintCard DisplayBlock
                        (setNoFieldsMessageDisplay DisplayNone
                           (setFormCard DisplayBlock e)))
            (generateForm names app1) in
        let '(app3, events) := updatePreview app2 in
        (app3, (log ++ events)%list)
  end.

(** *** [clearForm] *)

Definition clearForm (app : App) : App :=
  let app1 := onElements (setLabelFile "") app in
  let app2 :=
    onState (fun s => setObjectNames []
                        (setLabelXml None (setLabel None s))) app1 in
  let app3 :=
    onElements
      (fun e => setPrintCard DisplayNone
                  (setPreviewCard DisplayNone
                     (setNoFieldsMessageDisplay DisplayNone
                        (setFormCard DisplayNone e))))
      app2 in
  onElements (setPreviewImageSrc "") (hideFileError app3).

End Program.

(** ** The specification's vocabulary *)

Module Spec.

Definition lowerChar (c : ascii) : ascii :=
  if ((65 <=? nat_of_ascii c) && (nat_of_ascii c <=? 90))%nat
  then ascii_of_nat (nat_of_ascii c + 32) else c.

Fixpoint toLowerCase (s : string) : string :=
  match s with
  | EmptyString => EmptyString
  | String c s' => String (lowerChar c) (toLowerCase s')
  end.


(** The tag name ends with the suffix "Object". *)
Definition isObjectTag (tag : string) : Prop :=
  exists stem, tag = stem ++ "Object".

(** [nameNode] is the first element named "Name" below [node]. *)
Definition firstNameElement (node nameNode : Dom.Node) : Prop :=
  exists before after,
    Dom.descendants node = (before ++ nameNode :: after)%list
    /\ Dom.tagNameOf nameNode = "Name"
    /\ forall e, In e before -> Dom.tagNameOf e <> "Name".

(** [node] is a field definition declaring the field [name]. *)
Definition definesField (node : Dom.Node) (name : string) : Prop :=
  isObjectTag (Dom.tagNameOf node)
  /\ exists nameNode,
       firstNameElement node nameNode /\ Dom.textContent nameNode = name.

(** Every element of the document, in document order. *)
Definition allElements (doc : Dom.Document) : list Dom.Node :=
  flat_map Dom.elementsOf doc.

(** [node] is the last element of the document that declares [name]. *)
Definition lastDefinitionOf (doc : Dom.Document) (name : string)
  (node : Dom.Node) : Prop :=
  exists before after,
    allElements doc = (before ++ node :: after)%list
    /\ definesField node name
    /\ forall later, In later after -> ~ definesField later name.

(** The comparator is a consistent comparator in the sense of
    [Array.prototype.sort]: it orders any two strings, the two ways
    round agree, and the order is transitive. *)
Definition consistentComparator (cmp : string -> string -> Z) : Prop :=
  (forall a b, cmp a b < 0 <-> 0 < cmp b a)
  /\ (forall a b c, cmp a b <= 0 -> cmp b c <= 0 -> cmp a c <= 0).

Definition ascending (cmp : string -> string -> Z) (l : list string) : Prop :=
  StronglySorted (fun a b => cmp a b <= 0) l.




(** What a pass does to the field of a toggle. *)
Definition toggleSynced (snapshots : gmap string string)
  (before after : Label) (name : string) (checked : bool) : Prop :=
  (checked = true ->
     forall v, snapshots !! name = Some v -> v <> "" ->
               getObjectText after name = Ok v)
  /\ (checked = true ->
      snapshots !! name = None \/ snapshots !! name = Some "" ->
      getObjectText after name = getObjectText before name)
  /\ (checked = false -> getObjectText after name = Ok "").

(** The print request of the page passes validation with copy count [q]. *)
Definition validRequest (app : App) (q : Z) : Prop :=
  printerSelect (elements app) <> ""
  /\ Js.parseInt (printQuantity (elements app)) = Some q
  /\ 1 <= q.

Definition isLabelCall (e : Event) : Prop :=
  match e with
  | CallSetObjectText _ _ | CallRender _ | CallPrint _ _ _ _ => True
  | _ => False
  end.

Definition noLabelCall (events : list Event) : Prop :=
  forall e, In e events -> ~ isLabelCall e.

End Spec.

(** ** Fixtures: a host and two templates *)

Module Demo.

(** Letters compared without case, shorter strings first. *)
Fixpoint compareNoCase (a b : string) : Z :=
  match a, b with
  | EmptyString, EmptyString => 0
  | EmptyString, String _ _ => -1
  | String _ _, EmptyString => 1
  | String x a', String y b' =>
      let d := Z.of_nat (nat_of_ascii (Js.upperChar x))
               - Z.of_nat (nat_of_ascii (Js.upperChar y)) in
      if d =? 0 then compareNoCase a' b' else d
  end.

Definition xmlA : string :=
  "<DieCutLabel><ObjectInfo><TextObject><Name>Title</Name></TextObject></ObjectInfo><ObjectInfo><ImageObject><Name>Logo</Name></ImageObject></ObjectInfo></DieCutLabel>".

Definition documentA : Dom.Document :=
  [Dom.Element "DieCutLabel"
     [Dom.Element "ObjectInfo"
        [Dom.Element "TextObject" [Dom.Element "Name" [Dom.Text "Title"]]];
      Dom.Element "ObjectInfo"
        [Dom.Element "ImageObject" [Dom.Element "Name" [Dom.Text "Logo"]]]]].

Definition labelA : Label :=
  mkLabel ["Title"; "Logo"]
          (<["Title" := "Hello"]> (<["Logo" := "iVBORw0KGgo="]> ∅)).

(** A template whose handle enumerates no object, though it holds one. *)
Definition xmlB : string :=
  "<DesktopLabel><Cell><Name>Title</Name></Cell></DesktopLabel>".

Definition documentB : Dom.Document :=
  [Dom.Element "DesktopLabel"
     [Dom.Element "Cell" [Dom.Element "Name" [Dom.Text "Title"]]]].

Definition labelB : Label :=
  mkLabel [] (<["Title" := "Original B"]> ∅).

Definition malformedXml : string := "<DieCutLabel><ObjectInfo>".

Definition parser (xml : string) : Dom.ParseResult :=
  if String.eqb xml xmlA then Dom.Parsed documentA
  else if String.eqb xml xmlB then Dom.Parsed documentB
  else Dom.ParserError [Dom.Text "XML Parsing Error: no element found";
                        Dom.Element "sourcetext" [Dom.Text xml]].

Definition open (xml : string) : result Label :=
  if String.eqb xml xmlA then Ok labelA
  else if String.eqb xml xmlB then Ok labelB
  else Throw "Unable to parse label xml".

Definition paramsXml (copies : Z) : string :=
  "<LabelWriterPrintParams><Copies>" ++ pretty copies
  ++ "</Copies></LabelWriterPrintParams>".

Definition host : Host :=
  mkHost parser compareNoCase open (fun _ => Ok "iVBORw0KGgoAAAANSUhEUg==")
         (fun _ _ _ _ => Ok tt) (Some paramsXml).

(** The same host with a framework that lacks
    [createLabelWriterPrintParamsXml]. *)
Definition hostWithoutPrintParams : Host :=
  mkHost parser compareNoCase open (fun _ => Ok "iVBORw0KGgoAAAANSUhEUg==")
         (fun _ _ _ _ => Ok tt) None.

(** The page before any template is loaded. *)
Definition initialApp : App :=
  mkApp (mkState None None [] ∅ ∅ true (Some "DYMO LabelWriter 450"))
        (mkElements ("connected", connectedMessage) "" "" DisplayNone
                    DisplayNone [] "" DisplayNone DisplayNone "" ""
                    DisplayNone "DYMO LabelWriter 450" "1").

(** Template A loaded into the fresh page. *)
Definition loadedA : App := fst (loadLabel host xmlA initialApp).

End Demo.

(** ** Further functions of the program *)

(** *** More string functions *)

Module Str.

Definition isUpper (c : ascii) : bool :=
  ((65 <=? nat_of_ascii c) && (nat_of_ascii c <=? 90))%nat.

Definition lowerChar (c : ascii) : ascii :=
  if isUpper c then ascii_of_nat (nat_of_ascii c + 32) else c.

(** [String.prototype.toLowerCase] *)
Fixpoint toLowerCase (s : string) : string :=
  match s with
  | EmptyString => EmptyString
  | String c s' => String (lowerChar c) (toLowerCase s')
  end.

(** [String.prototype.includes] *)
Fixpoint includes (s sub : string) : bool :=
  Js.startsWith s sub
  || match s with
     | String _ s' => includes s' sub
     | EmptyString => false
     end.

(** The white space at the end of the string removed. *)
Fixpoint trimEnd (s : string) : string :=
  match s with
  | EmptyString => EmptyString
  | String c s' =>
      match trimEnd s' with
      | EmptyString => if Js.isWhiteSpace c then EmptyString
                       else String c EmptyString
      | r => String c r
      end
  end.

(** [String.prototype.trim] *)
Definition trim (s : string) : string := trimEnd (Js.trimStart s).

(** [replace(/([A-Z])/g, ' $1')]: a space before every capital letter. *)
Fixpoint spaceBeforeCapitals (s : string) : string :=
  match s with
  | EmptyString => EmptyString
  | String c s' =>
      if isUpper c then String " " (String c (spaceBeforeCapitals s'))
      else String c (spaceBeforeCapitals s')
  end.

Definition isLineTerminator (c : ascii) : bool :=
  ((nat_of_ascii c =? 10) || (nat_of_ascii c =? 13))%nat.

(** [replace(/^./, str => str.toUpperCase())] on ASCII strings: the dot
    matches any first character but a line terminator. *)
Definition upperFirst (s : string) : string :=
  match s with
  | EmptyString => EmptyString
  | String c s' => if isLineTerminator c then s else String (Js.upperChar c) s'
  end.

(** The string without its white space characters. *)
Fixpoint withoutWhiteSpace (s : string) : string :=
  match s with
  | EmptyString => EmptyString
  | String c s' =>
      if Js.isWhiteSpace c then withoutWhiteSpace s'
      else String c (withoutWhiteSpace s')
  end.

End Str.

(** *** [formatFieldName] *)

Definition formatFieldName (name : string) : string :=
  Str.trim (Str.upperFirst (Str.spaceBeforeCapitals name)).

(** *** [debounce] *)

Module Timer.

(** The variable [timeout] of a closure made by [debounce(func, wait)]:
    while the timer armed last is pending, the time at which it is due and
    the arguments it will pass to [func]. *)
Definition Slot (A : Type) : Type := option (Z * A).

(** A call of the closure at the time [now]: [clearTimeout(timeout)]
    drops the pending timer and [setTimeout] arms a new one. *)
Definition debounce {A : Type} (wait now : Z) (args : A) (timeout : Slot A)
  : Slot A :=
  Some (now + wait, args).

(** The timer that has fired by the time [now], if any. *)
Definition fired {A : Type} (now : Z) (timeout : Slot A) : list (Z * A) :=
  match timeout with
  | Some (due, args) => if due <=? now then [(due, args)] else []
  | None => []
  end.

(** The calls of [func], with their times, when the closure is called at
    the given times with the given arguments and the timer armed by the
    last call is left to fire. *)
Fixpoint run {A : Type} (wait : Z) (timeout : Slot A) (calls : list (Z * A))
  : list (Z * A) :=
  match calls with
  | [] =>
      match timeout with
      | Some pending => [pending]
      | None => []
      end
  | (now, args) :: rest =>
      (fired now timeout ++ run wait (debounce wait now args timeout) rest)%list
  end.

(** The calls are given in order of time. *)
Definition chronological {A : Type} (calls : list (Z * A)) : Prop :=
  StronglySorted Z.le (map fst calls).

(** Each call comes less than [wait] after the one before it. *)
Fixpoint burst {A : Type} (wait : Z) (calls : list (Z * A)) : Prop :=
  match calls with
  | (t1, _) :: ((t2, _) :: _) as rest =>
      t1 <= t2 /\ t2 < t1 + wait /\ burst wait rest
  | _ => True
  end.

End Timer.

(** *** [loadPrinters] *)

Record Printer : Type := mkPrinter {
  printerName : string;
  printerType : string
}.

(** An option of the printer select, with its selectedness. *)
Record SelectOption : Type := mkOption {
  optionValue : string;
  optionText : string;
  selectedness : bool
}.

Module Select.

Definition deselect (o : SelectOption) : SelectOption :=
  mkOption (optionValue o) (optionText o) false.

Definition select (o : SelectOption) : SelectOption :=
  mkOption (optionValue o) (optionText o) true.

(** An option is appended to a select that shows one option at a time: a
    selected newcomer takes the selection from the options before it, and
    when nothing is selected the first option is. *)
Definition append (o : SelectOption) (options : list SelectOption)
  : list SelectOption :=
  if selectedness o then (map deselect options ++ [o])%list
  else if existsb selectedness options then (options ++ [o])%list
  else match options with
       | [] => [select o]
       | first :: others => (select first :: others ++ [o])%list
       end.

(** [select.value] *)
Definition value (options : list SelectOption) : string :=
  match List.find selectedness options with
  | Some o => optionValue o
  | None => ""
  end.

End Select.

Definition setSelectedPrinter (v : option string) (s : State) : State :=
  mkState (label s) (labelXml s) (objectNames s) (objectTypes s)
          (initialValues s) (isServiceRunning s) v.
Definition setIsServiceRunning (v : bool) (s : State) : State :=
  mkState (label s) (labelXml s) (objectNames s) (objectTypes s)
          (initialValues s) v (selectedPrinter s).
Definition setPrinterSelect (v : string) (e : Elements) : Elements :=
  mkElements (status e) (labelFile e) (fileError e) (fileErrorDisplay e)
    (formCard e) (labelForm e) (noFieldsMessage e) (noFieldsMessageDisplay e)
    (previewCard e) (previewImageSrc e) (previewImageAlt e) (printCard e)
    v (printQuantity e).

Definition isLabelWriter (p : Printer) : bool :=
  String.eqb (printerType p) "LabelWriterPrinter".

(** [printer.name.includes('450') || printer.name.includes('LabelWriter')] *)
Definition autoSelects (name : string) : bool :=
  Str.includes name "450" || Str.includes name "LabelWriter".

(** [!state.selectedPrinter]: no printer, or the empty name. *)
Definition noPrinter (selected : option string) : bool :=
  match selected with
  | Some name => String.eqb name ""
  | None => true
  end.

(** One iteration of [labelPrinters.forEach]: the options of the select
    and [state.selectedPrinter] after the printer is added. *)
Definition addPrinter (acc : list SelectOption * option string) (p : Printer)
  : list SelectOption * option string :=
  let '(options, selected) := acc in
  let name := printerName p in
  if autoSelects name && noPrinter selected
  then (Select.append (mkOption name name true) options, Some name)
  else (Select.append (mkOption name name false) options, selected).

Definition placeholderOption : SelectOption :=
  mkOption "" "Select printer..." false.

(** [loadPrinters], as a function of what [getPrintersAsync] gave: the
    page, with the value of the select in [printerSelect], and the options
    of the select.  ([console.log] is not recorded.) *)
Definition loadPrinters (outcome : result (list Printer)) (app : App)
  : (App * list SelectOption) * list Event :=
  match outcome with
  | Throw _ =>
      let options :=
        Select.append (mkOption "" "Error loading printers" false) [] in
      ((onElements (setPrinterSelect (Select.value options)) app, options),
       [ConsoleError "Error loading printers:"])
  | Ok printers =>
      let labelPrinters := List.filter isLabelWriter printers in
      let options0 := Select.append placeholderOption [] in
      if (length labelPrinters =? 0)%nat then
        let options :=
          Select.append (mkOption "No DYMO printers found"
                                  "No DYMO printers found" false) options0 in
        ((onElements (setPrinterSelect (Select.value options)) app, options),
         [])
      else
        let '(options, selected) :=
          foldl addPrinter (options0, selectedPrinter (state app))
                labelPrinters in
        ((onElements (setPrinterSelect (Select.value options))
                     (onState (setSelectedPrinter selected) app), options),
         [])
  end.

(** *** [init] *)

(** What the page finds under the global [dymo]. *)
Inductive FrameworkScript : Type :=
  | ScriptMissing
  | ScriptIncomplete
  | ScriptLoaded.

(** What [dymo.label.framework.init(resolve)] does. *)
Inductive InitOutcome : Type :=
  | InitCompletes
  | InitNeverCompletes
  | InitThrows (message : string).

(** The environment [init] runs in: the script, the framework's [init],
    and the answers of [checkEnvironment] ([isFrameworkInstalled],
    [isWebServicePresent]) and [getPrintersAsync]. *)
Record Startup : Type := mkStartup {
  script : FrameworkScript;
  initOutcome : InitOutcome;
  environment : result (bool * bool);
  printers : result (list Printer)
}.

(** The [catch] of [init]. *)
Definition initFailed (message : string) (app : App)
  : (App * option (list SelectOption)) * list Event :=
  ((onElements
      (setStatus ("disconnected",
                  "Service Error: " ++ message
                  ++ ". Is DYMO Connect installed?"))
      (onState (setIsServiceRunning false) app),
    None),
   [ConsoleError "Initialization failed:"]).

(** [init]: the page, the options of the printer select when the printers
    were loaded, and the events. *)
Definition init (env : Startup) (app : App)
  : (App * option (list SelectOption)) * list Event :=
  let app0 :=
    onElements (setStatus ("checking", "Initializing DYMO Framework...")) app in
  match script env with
  | ScriptMissing => initFailed "dymo is not defined" app0
  | ScriptIncomplete =>
      initFailed "DYMO Framework script not loaded improperly." app0
  | ScriptLoaded =>
      match initOutcome env with
      | InitNeverCompletes => ((app0, None), [])
      | InitThrows message => initFailed message app0
      | InitCompletes =>
          match environment env with
          | Throw message => initFailed message app0
          | Ok (isFrameworkInstalled, isWebServicePresent) =>
              if isFrameworkInstalled && isWebServicePresent then
                let app1 :=
                  onElements (setStatus ("connected", connectedMessage))
                             (onState (setIsServiceRunning true) app0) in
                let '((app2, options), events) :=
                  loadPrinters (printers env) app1 in
                ((app2, Some options), events)
              else
                initFailed "DYMO Web Service not found or not installed." app0
          end
      end
  end.

(** *** [handleFileUpload] *)

(** A file of the file input: its name, and what reading it as text
    gives ([onload] with the text, or [onerror]). *)
Record File : Type := mkFile {
  fileName : string;
  readAsText : result string
}.

Definition acceptsFile (name : string) : bool :=
  let fileName := Str.toLowerCase name in
  Js.endsWith fileName ".label" || Js.endsWith fileName ".dymo".

(** [handleFileUpload] for the first file of the input, if any, together
    with the reader's [onload] or [onerror].  ([loadLabel] catches what is
    thrown inside it, so the [catch] around its call is never entered.) *)
Definition handleFileUpload (host : Host) (file : option File) (app : App)
  : App * list Event :=
  match file with
  | None => (app, [])
  | Some f =>
      if acceptsFile (fileName f) then
        let app1 := hideFileError app in
        match readAsText f with
        | Ok text => loadLabel host text app1
        | Throw _ =>
            (showFileError "Error reading file. Please try again." app1, [])
        end
      else
        (showFileError
           "Invalid file type. Please upload a .label or .dymo file." app,
         [])
  end.

(** *** The user at the form *)

(** The user changes the contents of the controls. *)
Definition editForm (controls : list Control) (app : App) : App :=
  onElements (setLabelForm controls) app.

(** *** More of the specification's vocabulary and fixtures *)

Module Spec2.

(** The write a control asks of the label in a pass, if any. *)
Definition writeOf (snapshots : gmap string string) (input : Control)
  : option (string * string) :=
  match input with
  | Checkbox name true =>
      match snapshots !! name with
      | Some val => if String.eqb val "" then None else Some (name, val)
      | None => None
      end
  | Checkbox name false => Some (name, "")
  | Textarea name value => Some (name, value)
  end.

(** A write as the handle takes it: only an object it holds changes. *)
Definition applyWrite (m : gmap string string) (w : string * string)
  : gmap string string :=
  match m !! fst w with
  | Some _ => <[fst w := snd w]> m
  | None => m
  end.

(** The value of the last write to [k], if any. *)
Definition lastWrite (k : string) (ws : list (string * string))
  : option string :=
  foldl (fun acc w => if decide (fst w = k) then Some (snd w) else acc) None ws.

(** Every capital letter of [s] comes right after a space, [prev] being
    the character before [s]. *)
Fixpoint spacedFrom (prev : ascii) (s : string) : Prop :=
  match s with
  | EmptyString => True
  | String c s' =>
      (Str.isUpper c = true -> prev = " "%char) /\ spacedFrom c s'
  end.

(** Every capital letter of [s] but a first one comes right after a
    space. *)
Definition capitalsSpaced (s : string) : Prop :=
  match s with
  | EmptyString => True
  | String c s' => spacedFrom c s'
  end.

Fixpoint lastChar (s : string) : option ascii :=
  match s with
  | EmptyString => None
  | String c EmptyString => Some c
  | String _ s' => lastChar s'
  end.

Definition firstChar (s : string) : option ascii :=
  match s with
  | EmptyString => None
  | String c _ => Some c
  end.

(** The fields of the page that a preview and a print request read but
    never change. *)
Definition sameTemplateData (app app' : App) : Prop :=
  labelForm (elements app') = labelForm (elements app)
  /\ initialValues (state app') = initialValues (state app)
  /\ objectTypes (state app') = objectTypes (state app)
  /\ objectNames (state app') = objectNames (state app)
  /\ labelXml (state app') = labelXml (state app)
  /\ printerSelect (elements app') = printerSelect (elements app)
  /\ printQuantity (elements app') = printQuantity (elements app).

(** The two handles enumerate the same names and hold the same objects;
    only the texts of the objects may differ. *)
Definition sameObjects (before after : option Label) : Prop :=
  match before, after with
  | Some l, Some l' =>
      names l' = names l
      /\ forall k, is_Some (texts l' !! k) <-> is_Some (texts l !! k)
  | None, None => True
  | _, _ => False
  end.

(** The file name ends, whatever the case, in one of the two extensions. *)
Definition hasLabelExtension (name : string) : Prop :=
  exists stem extension,
    name = stem ++ extension
    /\ (Str.toLowerCase extension = ".label"
        \/ Str.toLowerCase extension = ".dymo").

(** The comparator is consistent and ranks no two different strings
    alike. *)
Definition totalOrder (cmp : string -> string -> Z) : Prop :=
  Spec.consistentComparator cmp /\ forall a b, cmp a b = 0 -> a = b.

End Spec2.

Module Sample.

(** Strings compared character by character, by code. *)
Fixpoint compareCodes (a b : string) : Z :=
  match a, b with
  | EmptyString, EmptyString => 0
  | EmptyString, String _ _ => -1
  | String _ _, EmptyString => 1
  | String x a', String y b' =>
      let d := Z.of_nat (nat_of_ascii x) - Z.of_nat (nat_of_ascii y) in
      if d =? 0 then compareCodes a' b' else d
  end.

Definition host : Host :=
  mkHost Demo.parser compareCodes Demo.open
         (fun _ => Ok "iVBORw0KGgoAAAANSUhEUg==") (fun _ _ _ _ => Ok tt)
         (Some Demo.paramsXml).

Definition printers : list Printer :=
  [mkPrinter "Office Laser" "LaserPrinter";
   mkPrinter "DYMO Tape" "TapePrinter";
   mkPrinter "Shipping 4XL" "LabelWriterPrinter";
   mkPrinter "DYMO LabelWriter 450" "LabelWriterPrinter";
   mkPrinter "DYMO LabelWriter 450 Turbo" "LabelWriterPrinter"].

(** The page as the script leaves it before [init]. *)
Definition blankApp : App :=
  mkApp (mkState None None [] ∅ ∅ false None)
        (mkElements ("checking", "") "" "" DisplayNone DisplayNone [] ""
                    DisplayNone DisplayNone "" "" DisplayNone "" "1").

Definition startup : Startup :=
  mkStartup ScriptLoaded InitCompletes (Ok (true, true)) (Ok printers).

End Sample.

(** ** The strings and numbers on which the embedding is exact *)

Module Domain.

Fixpoint allChars (p : ascii -> bool) (s : string) : bool :=
  match s with
  | EmptyString => true
  | String c s' => p c && allChars p s'
  end.

Definition isAsciiChar (c : ascii) : bool := (nat_of_ascii c <? 128)%nat.

(** A string of ASCII characters.  On these [Js.toUpperCase],
    [Str.toLowerCase], [Str.upperFirst] and [Str.trim] are
    [String.prototype.toUpperCase], [toLowerCase] and [trim]: outside
    ASCII the case mappings of JavaScript are those of Unicode, which also
    map some characters into ASCII or to several characters, and [trim]
    removes further white space. *)
Definition asciiString (s : string) : Prop := allChars isAsciiChar s = true.

(** An ASCII character that markup takes as it is, in text and in a quoted
    attribute value: not NUL, not a carriage return, not a double quote,
    an ampersand or an angle bracket. *)
Definition isPlainChar (c : ascii) : bool :=
  let n := nat_of_ascii c in
  (isAsciiChar c && negb (n =? 0) && negb (n =? 13) && negb (n =? 34)
   && negb (n =? 38) && negb (n =? 60) && negb (n =? 62))%nat.

(** A field name that [generateForm], which writes it into the markup of
    a control without escaping it, gets back unchanged as the
    [data-field-name] of that control. *)
Definition plainName (name : string) : Prop :=
  allChars isPlainChar name = true.

Definition isTextareaChar (c : ascii) : bool :=
  let n := nat_of_ascii c in (negb (n =? 0) && negb (n =? 13))%nat.

(** A text that a textarea built from markup holds unchanged: the parser
    drops a line feed right after the start tag, turns a carriage return
    (with a line feed after it, if any) into a line feed and replaces
    NUL. *)
Definition verbatimText (t : string) : Prop :=
  allChars isTextareaChar t = true
  /\ Js.startsWith t (String "010" EmptyString) = false.

(** Every text of the label is one a textarea holds unchanged. *)
Definition verbatimTexts (l : Label) : Prop :=
  forall name t, texts l !! name = Some t -> verbatimText t.

(** The integers every one of which a JavaScript number holds exactly:
    [parseInt] and the conversion of a number to text work on these
    without rounding. *)
Definition exactNumber (z : Z) : Prop := - 2 ^ 53 <= z <= 2 ^ 53.

End Domain.

(** * Properties *)

(** ** Strings *)

Lemma append_nil (s : string) : "" ++ s = s.
Proof. reflexivity. Qed.

Lemma append_cons (c : ascii) (p s : string) :
  String c p ++ s = String c (p ++ s).
Proof. reflexivity. Qed.

Lemma dropString_app (p s : string) :
  Js.dropString (String.length p) (p ++ s) = s.
Proof.
  induction p as [|c p IH]; [reflexivity|].
  rewrite append_cons. simpl. exact IH.
Qed.

Lemma dropString_split (n : nat) (s : string) :
  exists p, s = p ++ Js.dropString n s.
Proof.
  revert s; induction n as [|n IH]; intros s.
  - exists ""; reflexivity.
  - destruct s as [|c s]; simpl.
    + exists ""; reflexivity.
    + destruct (IH s) as [p Hp]. exists (String c p).
      rewrite append_cons. f_equal. exact Hp.
Qed.

Lemma length_append (p s : string) :
  String.length (p ++ s) = (String.length p + String.length s)%nat.
Proof.
  induction p as [|c p IH]; [reflexivity|].
  rewrite append_cons. simpl. congruence.
Qed.

(** [endsWith] decides that the string is some stem followed by the
    suffix. *)
Lemma endsWith_spec (s suffix : string) :
  Js.endsWith s suffix = true <-> exists stem, s = stem ++ suffix.
Proof.
  unfold Js.endsWith. rewrite andb_true_iff, Nat.leb_le, String.eqb_eq. split.
  - intros [_ Hdrop].
    destruct (dropString_split (String.length s - String.length suffix) s)
      as [p Hp].
    exists p. congruence.
  - intros [stem ->]. rewrite length_append. split; [lia|].
    replace (String.length stem + String.length suffix - String.length suffix)%nat
      with (String.length stem) by lia.
    apply dropString_app.
Qed.







(** ** Sorting *)

Section Sorting.

Variable cmp : string -> string -> Z.

Lemma insertSorted_perm (x : string) (l : list string) :
  Permutation (x :: l) (insertSorted cmp x l).
Proof.
  induction l as [|y l IH]; simpl; [reflexivity|].
  destruct (cmp x y <=? 0); [reflexivity|].
  rewrite perm_swap. apply perm_skip, IH.
Qed.

Lemma arraySort_perm (l : list string) : Permutation l (arraySort cmp l).
Proof.
  induction l as [|x l IH]; simpl; [reflexivity|].
  rewrite <- insertSorted_perm. apply perm_skip, IH.
Qed.

Lemma arraySort_In (l : list string) (x : string) :
  In x (arraySort cmp l) <-> In x l.
Proof.
  split; apply Permutation_in;
    [symmetry|]; apply arraySort_perm.
Qed.

Hypothesis cmp_consistent : Spec.consistentComparator cmp.

Lemma insertSorted_ascending (x : string) (l : list string) :
  Spec.ascending cmp l -> Spec.ascending cmp (insertSorted cmp x l).
Proof.
  destruct cmp_consistent as [Hanti Htrans]. unfold Spec.ascending.
  induction l as [|y l IH]; intros Hl; simpl.
  - repeat constructor.
  - inversion Hl as [|? ? Hl' Hy]; subst.
    destruct (cmp x y <=? 0) eqn:E.
    + apply Z.leb_le in E. constructor; [exact Hl|].
      constructor; [exact E|].
      eapply List.Forall_impl; [|exact Hy]. intros z Hz; simpl in Hz.
      exact (Htrans _ _ _ E Hz).
    + apply Z.leb_gt in E. constructor; [apply IH, Hl'|].
      apply List.Forall_forall. intros z Hz.
      apply (Permutation_in z (Permutation_sym (insertSorted_perm x l))) in Hz.
      destruct Hz as [<- | Hz].
      * apply Hanti in E. lia.
      * rewrite List.Forall_forall in Hy. apply Hy, Hz.
Qed.

Lemma arraySort_ascending (l : list string) :
  Spec.ascending cmp (arraySort cmp l).
Proof.
  induction l as [|x l IH]; simpl.
  - constructor.
  - apply insertSorted_ascending, IH.
Qed.

End Sorting.

Lemma compareNoCase_antisym (a b : string) :
  Demo.compareNoCase a b < 0 <-> 0 < Demo.compareNoCase b a.
Proof.
  revert b; induction a as [|x a IH]; intros [|y b]; simpl; try lia.
  destruct (Z.eqb_spec (Z.of_nat (nat_of_ascii (Js.upperChar x))
                        - Z.of_nat (nat_of_ascii (Js.upperChar y))) 0) as [E|E];
    destruct (Z.eqb_spec (Z.of_nat (nat_of_ascii (Js.upperChar y))
                          - Z.of_nat (nat_of_ascii (Js.upperChar x))) 0) as [F|F];
    try lia.
  apply IH.
Qed.

Lemma compareNoCase_trans (a b c : string) :
  Demo.compareNoCase a b <= 0 -> Demo.compareNoCase b c <= 0 ->
  Demo.compareNoCase a c <= 0.
Proof.
  revert b c; induction a as [|x a IH]; intros [|y b] [|z c]; simpl; try lia.
  destruct (Z.eqb_spec (Z.of_nat (nat_of_ascii (Js.upperChar x))
                        - Z.of_nat (nat_of_ascii (Js.upperChar y))) 0) as [E|E];
    destruct (Z.eqb_spec (Z.of_nat (nat_of_ascii (Js.upperChar y))
                          - Z.of_nat (nat_of_ascii (Js.upperChar z))) 0) as [F|F];
    destruct (Z.eqb_spec (Z.of_nat (nat_of_ascii (Js.upperChar x))
                          - Z.of_nat (nat_of_ascii (Js.upperChar z))) 0) as [G|G];
    try lia.
  apply IH.
Qed.

Lemma compareNoCase_consistent : Spec.consistentComparator Demo.compareNoCase.
Proof.
  split; [exact compareNoCase_antisym | exact compareNoCase_trans].
Qed.

(** ** The synchronisation pass *)

Section Pass.

Variables (warn : bool) (snapshots : gmap string string).

Lemma getObjectText_texts (a b : Label) (n : string) :
  texts a !! n = texts b !! n -> getObjectText a n = getObjectText b n.
Proof. unfold getObjectText. intros ->. reflexivity. Qed.

Lemma trySetObjectText_other (l : Label) (name value n : string) :
  n <> name ->
  texts (fst (trySetObjectText warn l name value)) !! n = texts l !! n.
Proof.
  intros Hn. unfold trySetObjectText, setObjectText.
  destruct (texts l !! name); simpl; [|reflexivity].
  apply lookup_insert_ne. congruence.
Qed.

Lemma trySetObjectText_same (l : Label) (name value : string) :
  is_Some (texts l !! name) ->
  texts (fst (trySetObjectText warn l name value)) !! name = Some value.
Proof.
  intros [t Ht]. unfold trySetObjectText, setObjectText. rewrite Ht. simpl.
  apply lookup_insert_eq.
Qed.

Lemma trySetObjectText_events (l : Label) (name value : string) (e : Event) :
  In e (snd (trySetObjectText warn l name value)) ->
  e = CallSetObjectText name value \/ exists text, e = ConsoleWarn text.
Proof.
  unfold trySetObjectText.
  destruct (setObjectText l name value); simpl.
  - intros [<- | []]. left; reflexivity.
  - intros [<- | H]; [left; reflexivity|].
    destruct warn; simpl in H; [|contradiction].
    destruct H as [<- | []]. right; eauto.
Qed.


Lemma syncInput_other (l : Label) (input : Control) (n : string) :
  n <> fieldNameOf input ->
  texts (fst (syncInput warn snapshots l input)) !! n = texts l !! n.
Proof.
  intros Hn. destruct input as [name [|] | name value]; simpl in *.
  - destruct (snapshots !! name) as [val|]; [|reflexivity].
    destruct (String.eqb val ""); [reflexivity|].
    apply trySetObjectText_other, Hn.
  - apply trySetObjectText_other, Hn.
  - apply trySetObjectText_other, Hn.
Qed.

Lemma syncInput_events (l : Label) (input : Control) (e : Event) :
  In e (snd (syncInput warn snapshots l input)) ->
  (exists value, e = CallSetObjectText (fieldNameOf input) value)
  \/ exists text, e = ConsoleWarn text.
Proof.
  destruct input as [name [|] | name value]; simpl.
  - destruct (snapshots !! name) as [val|]; [|intros []].
    destruct (String.eqb val ""); [intros []|].
    intros H. apply trySetObjectText_events in H as [-> | H]; eauto.
  - intros H. apply trySetObjectText_events in H as [-> | H]; eauto.
  - intros H. apply trySetObjectText_events in H as [-> | H]; eauto.
Qed.

Lemma syncInput_toggle (l : Label) (name : string) (checked : bool) :
  is_Some (texts l !! name) ->
  Spec.toggleSynced snapshots l
    (fst (syncInput warn snapshots l (Checkbox name checked))) name checked.
Proof.
  intros Hsome. unfold Spec.toggleSynced. repeat split.
  - intros -> v Hv Hne. simpl. rewrite Hv.
    destruct (String.eqb_spec v ""); [contradiction|].
    unfold getObjectText. rewrite trySetObjectText_same; auto.
  - intros -> Hv. simpl.
    destruct Hv as [-> | ->]; reflexivity.
  - intros ->. simpl.
    unfold getObjectText. rewrite trySetObjectText_same; auto.
Qed.

Lemma syncPass_app (l : Label) (xs ys : list Control) :
  syncPass warn snapshots l (xs ++ ys)
  = let '(l1, e1) := syncPass warn snapshots l xs in
    let '(l2, e2) := syncPass warn snapshots l1 ys in
    (l2, (e1 ++ e2)%list).
Proof.
  revert l; induction xs as [|x xs IH]; intros l; simpl.
  - destruct (syncPass warn snapshots l ys); reflexivity.
  - destruct (syncInput warn snapshots l x) as [l1 e1].
    rewrite IH.
    destruct (syncPass warn snapshots l1 xs) as [l2 e2].
    destruct (syncPass warn snapshots l2 ys) as [l3 e3].
    rewrite <- app_assoc. reflexivity.
Qed.

(** A pass leaves alone every field that has no control. *)
Lemma syncPass_other (l : Label) (inputs : list Control) (n : string) :
  ~ In n (map fieldNameOf inputs) ->
  texts (fst (syncPass warn snapshots l inputs)) !! n = texts l !! n.
Proof.
  revert l; induction inputs as [|input rest IH]; intros l Hn; simpl.
  - reflexivity.
  - simpl in Hn.
    pose proof (syncInput_other l input n) as H1.
    destruct (syncInput warn snapshots l input) as [l1 e1]. simpl in H1.
    specialize (IH l1).
    destruct (syncPass warn snapshots l1 rest) as [l2 e2]. simpl in *.
    rewrite IH by tauto. apply H1. intros ->. tauto.
Qed.

(** A pass calls the handle only for fields that have a control. *)
Lemma syncPass_events (l : Label) (inputs : list Control) (e : Event) :
  In e (snd (syncPass warn snapshots l inputs)) ->
  (exists name value,
      e = CallSetObjectText name value /\ In name (map fieldNameOf inputs))
  \/ exists text, e = ConsoleWarn text.
Proof.
  revert l; induction inputs as [|input rest IH]; intros l; simpl.
  - intros [].
  - pose proof (syncInput_events l input e) as H1.
    destruct (syncInput warn snapshots l input) as [l1 e1]. simpl in H1.
    specialize (IH l1).
    destruct (syncPass warn snapshots l1 rest) as [l2 e2]. simpl in *.
    rewrite in_app_iff. intros [H | H].
    + destruct (H1 H) as [[value ->] | ?]; [left | right; assumption].
      eauto.
    + destruct (IH H) as [[name [value [-> Hin]]] | ?];
        [left | right; assumption].
      eauto.
Qed.

(** The state a pass has reached when it comes to one control, for a
    form in which no two controls share a field. *)
Lemma syncPass_at (l : Label) (inputs : list Control) (input : Control) :
  In input inputs ->
  List.NoDup (map fieldNameOf inputs) ->
  exists reached,
    texts reached !! fieldNameOf input = texts l !! fieldNameOf input
    /\ texts (fst (syncPass warn snapshots l inputs)) !! fieldNameOf input
       = texts (fst (syncInput warn snapshots reached input))
           !! fieldNameOf input
    /\ forall e, In e (snd (syncInput warn snapshots reached input)) ->
                 In e (snd (syncPass warn snapshots l inputs)).
Proof.
  intros Hin Hnodup.
  apply in_split in Hin as [xs [ys ->]].
  rewrite map_app in Hnodup. simpl in Hnodup.
  apply NoDup_remove in Hnodup as [_ Hnot].
  rewrite in_app_iff in Hnot.
  rewrite syncPass_app.
  pose proof (syncPass_other l xs (fieldNameOf input)) as Hxs.
  destruct (syncPass warn snapshots l xs) as [l1 e1]. simpl in Hxs.
  exists l1. simpl.
  pose proof (syncPass_other (fst (syncInput warn snapshots l1 input)) ys
                             (fieldNameOf input)) as Hys.
  destruct (syncInput warn snapshots l1 input) as [l2 e2]. simpl in *.
  destruct (syncPass warn snapshots l2 ys) as [l3 e3]. simpl in *.
  split; [apply Hxs; tauto|]. split; [apply Hys; tauto|].
  intros e He. rewrite !in_app_iff. tauto.
Qed.

Lemma toggleSynced_texts (before before' after after' : Label)
  (name : string) (checked : bool) :
  texts before' !! name = texts before !! name ->
  texts after' !! name = texts after !! name ->
  Spec.toggleSynced snapshots before after name checked ->
  Spec.toggleSynced snapshots before' after' name checked.
Proof.
  intros Hb Ha [H1 [H2 H3]].
  rewrite <- (getObjectText_texts after' after name Ha) in H1, H2, H3.
  rewrite <- (getObjectText_texts before' before name Hb) in H2.
  repeat split; assumption.
Qed.

(** What a pass does to the field of a toggle of the form. *)
Lemma syncPass_toggle (l : Label) (inputs : list Control) (name : string)
  (checked : bool) :
  In (Checkbox name checked) inputs ->
  List.NoDup (map fieldNameOf inputs) ->
  is_Some (texts l !! name) ->
  Spec.toggleSynced snapshots l (fst (syncPass warn snapshots l inputs))
                    name checked.
Proof.
  intros Hin Hnodup Hsome.
  destruct (syncPass_at l inputs _ Hin Hnodup) as [reached [Hr [Hafter _]]].
  simpl fieldNameOf in *.
  apply (toggleSynced_texts reached l
           (fst (syncInput warn snapshots reached (Checkbox name checked))));
    [symmetry; exact Hr | exact Hafter |].
  apply syncInput_toggle. rewrite Hr. exact Hsome.
Qed.



End Pass.

(** ** The field extractor *)

Lemma below_flat_map (children : list Dom.Node) :
  (fix below (l : list Dom.Node) : list Dom.Node :=
     match l with
     | [] => []
     | c :: l' => (Dom.elementsOf c ++ below l')%list
     end) children = flat_map Dom.elementsOf children.
Proof. induction children as [|c l IH]; simpl; congruence. Qed.

Lemma documentElements_all (doc : Dom.Document) :
  Dom.documentElementsByTagName doc "*" = Spec.allElements doc.
Proof.
  unfold Dom.documentElementsByTagName, Spec.allElements.
  induction (flat_map Dom.elementsOf doc) as [|n l IH]; simpl; congruence.
Qed.

Lemma head_filter_spec {A : Type} (f : A -> bool) (l : list A) (x : A) :
  head (List.filter f l) = Some x <->
  exists before after,
    l = (before ++ x :: after)%list /\ f x = true
    /\ forall e, In e before -> f e = false.
Proof.
  induction l as [|y l IH]; simpl.
  - split; [discriminate|]. intros [[|? ?] [? [H _]]]; discriminate.
  - destruct (f y) eqn:Hy; simpl.
    + split.
      * intros [= ->]. exists [], l. simpl. tauto.
      * intros [[|z before] [after [Heq [Hx Hbefore]]]]; simpl in Heq.
        -- congruence.
        -- injection Heq as -> _.
           rewrite (Hbefore z) in Hy by (left; reflexivity). discriminate.
    + rewrite IH. split.
      * intros [before [after [-> [Hx Hbefore]]]].
        exists (y :: before), after. simpl. repeat split; auto.
        intros e [<- | He]; auto.
      * intros [[|z before] [after [Heq [Hx Hbefore]]]]; simpl in Heq.
        -- injection Heq as -> _. congruence.
        -- injection Heq as -> ->. exists before, after.
           repeat split; auto. intros e He. apply Hbefore. right; exact He.
Qed.

Lemma tagMatches_Name (e : Dom.Node) :
  Dom.tagMatches "Name" e = true <-> Dom.tagNameOf e = "Name".
Proof. unfold Dom.tagMatches. simpl. apply String.eqb_eq. Qed.

(** The loop of [parseObjectTypes] records an element exactly when the
    specification calls it a field definition. *)
Lemma declaration_spec (node : Dom.Node) (name tag : string) :
  declaration node = Some (name, tag) <->
  Spec.definesField node name /\ Dom.tagNameOf node = tag.
Proof.
  unfold declaration, Spec.definesField, Spec.isObjectTag,
    Spec.firstNameElement, Dom.getElementsByTagName.
  destruct (Js.endsWith (Dom.tagNameOf node) "Object") eqn:Hends.
  - apply endsWith_spec in Hends.
    destruct (head (List.filter (Dom.tagMatches "Name") (Dom.descendants node)))
      as [nameNode|] eqn:Hhead.
    + apply head_filter_spec in Hhead as [before [after [Hsplit [Hname Hbefore]]]].
      apply tagMatches_Name in Hname. split.
      * intros [= <- <-]. split; [|reflexivity]. split; [exact Hends|].
        exists nameNode. split; [|reflexivity].
        exists before, after. repeat split; auto.
        intros e He Htag. apply tagMatches_Name in Htag.
        rewrite (Hbefore e He) in Htag. discriminate.
      * intros [[_ [nameNode' [[before' [after' [Hsplit' [Hname' Hbefore']]]] <-]]] <-].
        assert (Hhead' : head (List.filter (Dom.tagMatches "Name")
                                           (Dom.descendants node))
                         = Some nameNode').
        { apply head_filter_spec. exists before', after'.
          repeat split; auto; [apply tagMatches_Name; exact Hname'|].
          intros e He. destruct (Dom.tagMatches "Name" e) eqn:E; [|reflexivity].
          apply tagMatches_Name in E. destruct (Hbefore' e He E). }
        assert (Hhead : head (List.filter (Dom.tagMatches "Name")
                                          (Dom.descendants node))
                        = Some nameNode).
        { apply head_filter_spec. exists before, after. repeat split; auto.
          apply tagMatches_Name; exact Hname. }
        congruence.
    + split; [discriminate|].
      intros [[_ [nameNode [[before [after [Hsplit [Hname Hbefore]]]] _]]] _].
      assert (Hsome : head (List.filter (Dom.tagMatches "Name")
                                        (Dom.descendants node))
                      = Some nameNode).
      { apply head_filter_spec. exists before, after.
        repeat split; auto; [apply tagMatches_Name; exact Hname|].
        intros e He. destruct (Dom.tagMatches "Name" e) eqn:E; [|reflexivity].
        apply tagMatches_Name in E. destruct (Hbefore e He E). }
      congruence.
  - split; [discriminate|].
    intros [[Hobj _] _]. apply endsWith_spec in Hobj. congruence.
Qed.

Lemma recordType_lookup (types : gmap string string) (node : Dom.Node)
  (name : string) :
  recordType types node !! name
  = match declaration node with
    | Some (n, tag) => if decide (n = name) then Some tag else types !! name
    | None => types !! name
    end.
Proof.
  unfold recordType. destruct (declaration node) as [[n tag]|]; [|reflexivity].
  apply lookup_insert.
Qed.

(** Last write wins: the entry of a name after the loop is the tag of the
    last element that declares it, or the entry it had before the loop. *)
Lemma foldl_recordType_Some (l : list Dom.Node) (types : gmap string string)
  (name tag : string) :
  foldl recordType types l !! name = Some tag <->
  (exists before node after,
      l = (before ++ node :: after)%list
      /\ declaration node = Some (name, tag)
      /\ forall later t, In later after -> declaration later <> Some (name, t))
  \/ (types !! name = Some tag
      /\ forall node t, In node l -> declaration node <> Some (name, t)).
Proof.
  revert types; induction l as [|x l IH]; intros types; simpl.
  - split.
    + intros H. right. split; [exact H | intros ? ? []].
    + intros [[[|? ?] [? [? [H _]]]] | [H _]]; try discriminate. exact H.
  - rewrite IH, recordType_lookup. split.
    + intros [[before [node [after [-> [Hdecl Hlater]]]]] | [Hx Hnone]].
      * left. exists (x :: before), node, after. auto.
      * destruct (declaration x) as [[n t]|] eqn:Hdx.
        -- destruct (decide (n = name)) as [-> | Hne].
           ++ injection Hx as ->. left. exists [], x, l. simpl.
              split; [reflexivity|]. split; [exact Hdx|].
              intros later t' Hin. apply Hnone, Hin.
           ++ right. split; [exact Hx|].
              intros node t' [<- | Hin]; [congruence | apply Hnone, Hin].
        -- right. split; [exact Hx|].
           intros node t' [<- | Hin]; [congruence | apply Hnone, Hin].
    + intros [[[|y before] [node [after [Heq [Hdecl Hlater]]]]] | [Hx Hnone]];
        try (simpl in Heq).
      * injection Heq as -> ->. right. rewrite Hdecl.
        rewrite decide_True by reflexivity. split; [reflexivity|].
        intros node' t' Hin. apply Hlater, Hin.
      * injection Heq as -> ->. left. exists before, node, after. auto.
      * right. split.
        -- destruct (declaration x) as [[n t]|] eqn:Hdx; [|exact Hx].
           destruct (decide (n = name)) as [-> | Hne]; [|exact Hx].
           destruct (Hnone x t (or_introl eq_refl)). exact Hdx.
        -- intros node t' Hin. apply Hnone. right; exact Hin.
Qed.

Lemma foldl_recordType_None (l : list Dom.Node) (types : gmap string string)
  (name : string) :
  foldl recordType types l !! name = None <->
  types !! name = None
  /\ forall node t, In node l -> declaration node <> Some (name, t).
Proof.
  revert types; induction l as [|x l IH]; intros types; simpl.
  - split; [intros H; split; [exact H | intros ? ? []] | tauto].
  - rewrite IH, recordType_lookup. split.
    + intros [Hx Hnone].
      destruct (declaration x) as [[n t]|] eqn:Hdx.
      * destruct (decide (n = name)) as [-> | Hne]; [discriminate|].
        split; [exact Hx|].
        intros node t' [<- | Hin]; [congruence | apply Hnone, Hin].
      * split; [exact Hx|].
        intros node t' [<- | Hin]; [congruence | apply Hnone, Hin].
    + intros [Hx Hnone]. split.
      * destruct (declaration x) as [[n t]|] eqn:Hdx; [|exact Hx].
        destruct (decide (n = name)) as [-> | Hne]; [|exact Hx].
        destruct (Hnone x t (or_introl eq_refl)). exact Hdx.
      * intros node t' Hin. apply Hnone. right; exact Hin.
Qed.

Lemma collectTypes_no_definition (doc : Dom.Document) :
  (forall node, In node (Spec.allElements doc) ->
                Js.endsWith (Dom.tagNameOf node) "Object" = false) ->
  collectTypes doc = ∅.
Proof.
  intros Hnone. apply map_eq. intros name. rewrite lookup_empty.
  unfold collectTypes. rewrite documentElements_all.
  apply foldl_recordType_None. split; [apply lookup_empty|].
  intros node t Hin. unfold declaration. rewrite (Hnone node Hin). discriminate.
Qed.

(** ** Preview and print *)

Section Actions.

Variable host : Host.

(** [updatePreview] with a label loaded: the pass over the form, then the
    render call on the label the pass produced, then no further call on
    the label. *)
Lemma updatePreview_shape (app : App) (l : Label) :
  label (state app) = Some l ->
  let pass := syncPass true (initialValues (state app)) l
                       (labelForm (elements app)) in
  exists tail,
    snd (updatePreview host app)
    = (snd pass ++ CallRender (fst pass) :: tail)%list
    /\ Spec.noLabelCall tail
    /\ state (fst (updatePreview host app))
       = setLabel (Some (fst pass)) (state app)
    /\ labelForm (elements (fst (updatePreview host app)))
       = labelForm (elements app).
Proof.
  intros Hl. unfold updatePreview. rewrite Hl. simpl.
  destruct (syncPass true (initialValues (state app)) l
                     (labelForm (elements app))) as [l' events].
  destruct (renderAsync host l') as [png | message]; simpl.
  - exists []. repeat split; auto. intros e [].
  - exists [ConsoleError "Preview error:"]. repeat split; auto.
    intros e [<- | []]. simpl. tauto.
Qed.

(** [printLabels] on a request that passes validation: the pass over the
    form, then the print call on the label the pass produced. *)
Lemma printLabels_shape (app : App) (l : Label) (q : Z) :
  label (state app) = Some l ->
  Spec.validRequest app q ->
  let pass := syncPass false (initialValues (state app)) l
                       (labelForm (elements app)) in
  exists tail,
    snd (printLabels host app)
    = (snd pass
       ++ CallPrint (fst pass) (printerSelect (elements app))
                    (printParamsFor host q) "" :: tail)%list
    /\ Spec.noLabelCall tail
    /\ label (state (fst (printLabels host app))) = Some (fst pass).
Proof.
  intros Hl [Hprinter [Hq Hpos]]. unfold printLabels. rewrite Hl, Hq. simpl.
  destruct (String.eqb_spec (printerSelect (elements app)) "");
    [contradiction|].
  destruct (Z.ltb_spec q 1); [lia|].
  destruct (syncPass false (initialValues (state app)) l
                     (labelForm (elements app))) as [l' events].
  destruct (print host l' (printerSelect (elements app))
                  (printParamsFor host q) "") as [[] | message]; simpl.
  - exists [SetTimeout 3000]. repeat split; auto.
    intros e [<- | []]. simpl. tauto.
  - eexists. repeat split; auto.
    intros e [<- | [<- | []]]; simpl; tauto.
Qed.

(** [printLabels] on a request that fails validation: one alert, and the
    application as it was. *)
Lemma printLabels_blocked (app : App) :
  label (state app) = None
  \/ printerSelect (elements app) = ""
  \/ Js.parseInt (printQuantity (elements app)) = None
  \/ (exists q, Js.parseInt (printQuantity (elements app)) = Some q /\ q < 1) ->
  exists message, printLabels host app = (app, [Alert message]).
Proof.
  intros H. unfold printLabels.
  destruct (label (state app)) as [l|]; [|eauto].
  destruct H as [H | H]; [discriminate|].
  destruct (String.eqb_spec (printerSelect (elements app)) ""); [eauto|].
  destruct H as [H | H]; [contradiction|].
  destruct H as [-> | [q [-> Hq]]]; [eauto|].
  destruct (Z.ltb_spec q 1); [eauto | lia].
Qed.

(** A print call is only ever made on a request that passes validation. *)
Lemma printLabels_call_valid (app : App) (seen : Label)
  (printer params labelSet : string) :
  In (CallPrint seen printer params labelSet) (snd (printLabels host app)) ->
  exists l q,
    label (state app) = Some l /\ Spec.validRequest app q
    /\ seen = fst (syncPass false (initialValues (state app)) l
                            (labelForm (elements app)))
    /\ printer = printerSelect (elements app)
    /\ params = printParamsFor host q /\ labelSet = "".
Proof.
  intros Hin.
  destruct (label (state app)) as [l|] eqn:Hl.
  2:{ destruct (printLabels_blocked app (or_introl Hl)) as [m Hm].
      rewrite Hm in Hin. destruct Hin as [H | []]; discriminate. }
  destruct (String.eqb_spec (printerSelect (elements app)) "") as [Hp | Hp].
  { destruct (printLabels_blocked app (or_intror (or_introl Hp))) as [m Hm].
    rewrite Hm in Hin. destruct Hin as [H | []]; discriminate. }
  destruct (Js.parseInt (printQuantity (elements app))) as [q|] eqn:Hq.
  2:{ destruct (printLabels_blocked app
                  (or_intror (or_intror (or_introl Hq)))) as [m Hm].
      rewrite Hm in Hin. destruct Hin as [H | []]; discriminate. }
  destruct (Z.ltb_spec q 1) as [Hlt | Hge].
  { destruct (printLabels_blocked app
                (or_intror (or_intror (or_intror
                   (ex_intro _ q (conj Hq Hlt)))))) as [m Hm].
    rewrite Hm in Hin. destruct Hin as [H | []]; discriminate. }
  assert (Hvalid : Spec.validRequest app q) by (repeat split; auto).
  destruct (printLabels_shape app l q Hl Hvalid) as [tail [Hev [Htail _]]].
  exists l, q. split; [reflexivity|]. split; [exact Hvalid|].
  rewrite Hev in Hin. apply in_app_iff in Hin as [Hin | [Hin | Hin]].
  - apply syncPass_events in Hin
      as [[name [value [Heq _]]] | [text Heq]]; discriminate.
  - injection Hin as <- <- <- <-. auto.
  - destruct (Htail _ Hin). exact I.
Qed.

(** [loadLabel] of a template that opens and enumerates at least one
    object: everything the page holds about a template is rebuilt from
    the new one. *)
Lemma loadLabel_rebuilds (xml : string) (l : Label) (app : App) :
  openLabelXml host xml = Ok l ->
  names l <> [] ->
  let types := fst (parseObjectTypes host xml) in
  let values := foldl (storeInitialValue l) ∅ (names l) in
  let fresh := mkState (Some l) (Some xml) (names l) types values
                       (isServiceRunning (state app))
                       (selectedPrinter (state app)) in
  let form := map (makeControl fresh) (editableNames host (names l)) in
  let next := fst (loadLabel host xml app) in
  labelForm (elements next) = form
  /\ label (state next) = Some (fst (syncPass true values l form))
  /\ labelXml (state next) = Some xml
  /\ objectNames (state next) = names l
  /\ objectTypes (state next) = types
  /\ initialValues (state next) = values.
Proof.
  intros Hopen Hnames. unfold loadLabel. rewrite Hopen.
  unfold getObjectNames.
  destruct (parseObjectTypes host xml) as [types log] eqn:Hparse.
  destruct (names l) as [|n rest] eqn:Hn; [contradiction|].
  cbn [length Nat.eqb fst].
  match goal with
  | |- context [updatePreview host ?a] =>
      pose proof (updatePreview_shape a _ eq_refl)
        as [tail [_ [_ [Hstate Hform]]]];
      destruct (updatePreview host a) as [app3 events]
  end.
  simpl in Hstate, Hform. simpl. rewrite Hstate, Hform. simpl.
  repeat split; reflexivity.
Qed.

End Actions.

(** ** The form *)


Lemma makeControl_name (s : State) (name : string) :
  fieldNameOf (makeControl s name) = name.
Proof. unfold makeControl. destruct (isImageType _); reflexivity. Qed.




(** ** Claims *)





Lemma declaration_none_iff (node : Dom.Node) (name : string) :
  (forall t, declaration node <> Some (name, t)) <-> ~ Spec.definesField node name.
Proof.
  split.
  - intros Hnone Hdef.
    apply (Hnone (Dom.tagNameOf node)), declaration_spec. auto.
  - intros Hnot t Hdecl. apply declaration_spec in Hdecl as [Hdef _]. auto.
Qed.

(** C3. For markup the parser accepts, the extractor goes through every
    element of the document in document order and logs nothing; for every
    name other than [__proto__], the tag it records for the name is the
    tag of the last element whose tag name ends with "Object" and whose
    first "Name" element below it has that name as its text, and it
    records nothing for the name exactly when no element declares it.
    (The mapping is a plain object, and an assignment to its [__proto__]
    key records no entry.) *)
Theorem C3_last_definition_wins (host : Host) (xml : string)
  (doc : Dom.Document) :
  parseFromString host xml = Dom.Parsed doc ->
  snd (parseObjectTypes host xml) = []
  /\ forall name,
       name <> "__proto__" ->
       (forall tag,
           fst (parseObjectTypes host xml) !! name = Some tag
           <-> exists node,
                 Spec.lastDefinitionOf doc name node
                 /\ Dom.tagNameOf node = tag)
       /\ (fst (parseObjectTypes host xml) !! name = None
           <-> forall node, In node (Spec.allElements doc) ->
                            ~ Spec.definesField node name).
Proof.
  intros Hparse. unfold parseObjectTypes, parseObjectTypesOf. rewrite Hparse.
  simpl. split; [reflexivity|]. intros name _.
  unfold collectTypes. rewrite documentElements_all. split.
  - intros tag. rewrite foldl_recordType_Some. split.
    + intros [[before [node [after [Hsplit [Hdecl Hlater]]]]] | [Hempty _]].
      * apply declaration_spec in Hdecl as [Hdef Htag].
        exists node. split; [|exact Htag].
        exists before, after. split; [exact Hsplit|]. split; [exact Hdef|].
        intros later Hin. apply declaration_none_iff.
        intros t. apply Hlater, Hin.
      * rewrite lookup_empty in Hempty. discriminate.
    + intros [node [[before [after [Hsplit [Hdef Hlater]]]] Htag]].
      left. exists before, node, after. split; [exact Hsplit|].
      split; [apply declaration_spec; auto|].
      intros later t Hin. apply declaration_none_iff, Hlater, Hin.
  - rewrite foldl_recordType_None. split.
    + intros [_ Hnone] node Hin. apply declaration_none_iff.
      intros t. apply Hnone, Hin.
    + intros Hnone. split; [apply lookup_empty|].
      intros node t Hin. apply declaration_none_iff, Hnone, Hin.
Qed.

(** C4, as amended. The extractor always returns a mapping and at most
    logs one warning.  When the parser throws, the mapping is empty and
    the warning is logged.  When the parser reports the failure in band,
    as a parsererror document, nothing is logged and the mapping is what
    the elements of that document declare: empty when none of them has a
    tag name ending with "Object".  The warning is logged exactly when
    the parser threw. *)
Theorem C4_extractor_failures (host : Host) (xml : string) :
  (forall message,
      parseFromString host xml = Dom.ParseThrows message ->
      parseObjectTypes host xml
      = (∅, [ConsoleWarn "Failed to parse label XML types"]))
  /\ (forall detail,
        parseFromString host xml = Dom.ParserError detail ->
        snd (parseObjectTypes host xml) = []
        /\ fst (parseObjectTypes host xml)
           = collectTypes [Dom.Element "parsererror" detail]
        /\ ((forall node, In node (Spec.allElements detail) ->
                          Js.endsWith (Dom.tagNameOf node) "Object" = false) ->
            fst (parseObjectTypes host xml) = ∅))
  /\ (snd (parseObjectTypes host xml) = []
      \/ snd (parseObjectTypes host xml)
         = [ConsoleWarn "Failed to parse label XML types"])
  /\ (In (ConsoleWarn "Failed to parse label XML types")
         (snd (parseObjectTypes host xml))
      <-> exists message, parseFromString host xml = Dom.ParseThrows message).
Proof.
  unfold parseObjectTypes, parseObjectTypesOf.
  destruct (parseFromString host xml) as [doc | detail | message]; simpl.
  - split; [discriminate|]. split; [discriminate|]. split; [left; reflexivity|].
    split; [intros [] | intros [? ?]; discriminate].
  - split; [discriminate|]. split.
    + intros detail' [= <-]. split; [reflexivity|]. split; [reflexivity|].
      intros Hnone. apply collectTypes_no_definition.
      intros node Hin. unfold Spec.allElements in Hin. simpl in Hin.
      rewrite below_flat_map, app_nil_r in Hin.
      destruct Hin as [<- | Hin]; [reflexivity | apply Hnone, Hin].
    + split; [left; reflexivity|].
      split; [intros [] | intros [? ?]; discriminate].
  - split; [intros ? _; reflexivity|]. split; [discriminate|].
    split; [right; reflexivity|].
    split; [eauto | intros _; left; reflexivity].
Qed.

(** C6, as amended. A print request whose printer is empty, or whose
    quantity parses to no number or to a number below one, only raises an
    alert: no call reaches the label and the application is as it was.
    A print call is made only for a loaded label and a request that passes
    validation, to the selected printer, with an empty label set and with
    the print parameters the framework creates for the parsed copy count
    when it offers [createLabelWriterPrintParamsXml], and with empty print
    parameters when it does not; every request that passes validation
    with a label loaded leads to that call. *)
Theorem C6_print_validation (host : Host) (app : App) :
  (printerSelect (elements app) = ""
   \/ Js.parseInt (printQuantity (elements app)) = None
   \/ (exists q, Js.parseInt (printQuantity (elements app)) = Some q /\ q < 1) ->
   exists message, printLabels host app = (app, [Alert message]))
  /\ (forall seen printer params labelSet,
        In (CallPrint seen printer params labelSet)
           (snd (printLabels host app)) ->
        exists l q,
          label (state app) = Some l
          /\ Spec.validRequest app q
          /\ printer = printerSelect (elements app)
          /\ labelSet = ""
          /\ params = match createLabelWriterPrintParamsXml host with
                      | Some create => create q
                      | None => ""
                      end)
  /\ (forall l q,
        label (state app) = Some l ->
        Spec.validRequest app q ->
        exists seen,
          In (CallPrint seen (printerSelect (elements app))
                        (printParamsFor host q) "")
             (snd (printLabels host app))).
Proof.
  split; [|split].
  - intros H. apply printLabels_blocked. tauto.
  - intros seen printer params labelSet Hin.
    apply printLabels_call_valid in Hin
      as [l [q [Hl [Hq [_ [Hprinter [Hparams Hset]]]]]]].
    exists l, q. repeat split; try assumption; apply Hq.
  - intros l q Hl Hq.
    destruct (printLabels_shape host app l q Hl Hq) as [tail [Hev _]].
    eexists. rewrite Hev. apply in_app_iff. right; left. reflexivity.
Qed.

(** C10. With a label loaded and a printer selected, the request is
    stopped at the quantity check exactly when [parseInt] of the quantity
    text is NaN or below one.  The texts "2.5" and "3abc" parse to 2 and
    3: the request goes on to the print call with that count handed to
    the framework's print parameters, and the status reports that many
    copies when the call succeeds. *)
Theorem C10_quantity_check (host : Host) (app : App) (l : Label) :
  label (state app) = Some l ->
  printerSelect (elements app) <> "" ->
  (printLabels host app = (app, [Alert "Please enter a valid quantity"])
   <-> Js.parseInt (printQuantity (elements app)) = None
       \/ exists q, Js.parseInt (printQuantity (elements app)) = Some q
                    /\ q < 1)
  /\ Js.parseInt "2.5" = Some 2
  /\ Js.parseInt "3abc" = Some 3
  /\ forall text q,
       (text = "2.5" /\ q = 2) \/ (text = "3abc" /\ q = 3) ->
       let request := typeQuantity text app in
       (exists seen,
           In (CallPrint seen (printerSelect (elements app))
                         (printParamsFor host q) "")
              (snd (printLabels host request)))
       /\ (print host
                  (fst (syncPass false (initialValues (state app)) l
                                 (labelForm (elements app))))
                  (printerSelect (elements app)) (printParamsFor host q) ""
            = Ok tt ->
            status (elements (fst (printLabels host request)))
              = ("connected",
                 "Successfully sent print job (" ++ pretty q ++ " copies) to "
                 ++ printerSelect (elements app))).
Proof.
  intros Hl Hprinter. split; [|split; [reflexivity|split; [reflexivity|]]].
  - split.
    + intros Hblocked.
      destruct (Js.parseInt (printQuantity (elements app))) as [q|] eqn:Hq;
        [|left; reflexivity].
      right. exists q. split; [reflexivity|].
      destruct (Z.ltb_spec q 1) as [Hlt | Hge]; [exact Hlt|].
      assert (Hvalid : Spec.validRequest app q) by (repeat split; auto).
      destruct (printLabels_shape host app l q Hl Hvalid) as [tail [Hev _]].
      rewrite Hblocked in Hev. simpl in Hev.
      assert (Hin : In (CallPrint
                          (fst (syncPass false (initialValues (state app)) l
                                         (labelForm (elements app))))
                          (printerSelect (elements app))
                          (printParamsFor host q) "")
                       [Alert "Please enter a valid quantity"]).
      { rewrite Hev. apply in_app_iff. right; left; reflexivity. }
      destruct Hin as [Hin | []]. discriminate.
    + intros H. unfold printLabels. rewrite Hl.
      destruct (String.eqb_spec (printerSelect (elements app)) "");
        [contradiction|].
      destruct H as [-> | [q [-> Hlt]]]; [reflexivity|].
      destruct (Z.ltb_spec q 1); [reflexivity | lia].
  - intros text q Htext request.
    assert (Hvalid : Spec.validRequest request q).
    { repeat split; [exact Hprinter | | ];
        destruct Htext as [[-> ->] | [-> ->]]; (reflexivity || lia). }
    assert (Hq : Js.parseInt text = Some q /\ (q <? 1) = false).
    { destruct Htext as [[-> ->] | [-> ->]]; split; reflexivity. }
    split.
    + destruct (printLabels_shape host request l q Hl Hvalid)
        as [tail [Hev _]].
      eexists. rewrite Hev. apply in_app_iff. right; left. reflexivity.
    + unfold printLabels. subst request. simpl.
      rewrite Hl. destruct Hq as [-> ->].
      destruct (String.eqb_spec (printerSelect (elements app)) "");
        [contradiction|].
      destruct (syncPass false (initialValues (state app)) l
                         (labelForm (elements app))) as [l' events].
      simpl. intros ->. reflexivity.
Qed.

(** ** Loading and clearing *)

Lemma makeControl_ext (s1 s2 : State) (name : string) :
  label s1 = label s2 -> objectTypes s1 = objectTypes s2 ->
  makeControl s1 name = makeControl s2 name.
Proof.
  intros Hl Ht. unfold makeControl, currentValueOf. rewrite Hl, Ht. reflexivity.
Qed.

(** [loadLabel] of a template that opens replaces the markup, the names,
    the kinds and the snapshots, whatever the page held before. *)
Lemma loadLabel_state (host : Host) (xml : string) (l : Label) (app : App) :
  openLabelXml host xml = Ok l ->
  let next := fst (loadLabel host xml app) in
  labelXml (state next) = Some xml
  /\ objectNames (state next) = names l
  /\ objectTypes (state next) = fst (parseObjectTypes host xml)
  /\ initialValues (state next) = foldl (storeInitialValue l) ∅ (names l).
Proof.
  intros Hopen. unfold loadLabel. rewrite Hopen. unfold getObjectNames.
  destruct (parseObjectTypes host xml) as [types log].
  destruct (length (names l) =? 0)%nat;
    match goal with
    | |- context [updatePreview host ?a] =>
        pose proof (updatePreview_shape host a _ eq_refl)
          as [tail [_ [_ [Hstate _]]]];
        destruct (updatePreview host a) as [app3 events]
    end;
    simpl in Hstate; simpl; rewrite Hstate; simpl; repeat split; reflexivity.
Qed.

(** [loadLabel] of a template that opens but enumerates no object keeps
    the controls the form had, and runs its pass over them on the new
    label. *)
Lemma loadLabel_empty_keeps_form (host : Host) (xml : string) (l : Label)
  (app : App) :
  openLabelXml host xml = Ok l ->
  names l = [] ->
  let result := loadLabel host xml app in
  let pass := syncPass true ∅ l (labelForm (elements app)) in
  labelForm (elements (fst result)) = labelForm (elements app)
  /\ label (state (fst result)) = Some (fst pass)
  /\ forall e, In e (snd pass) -> In e (snd result).
Proof.
  intros Hopen Hnames. unfold loadLabel. rewrite Hopen. unfold getObjectNames.
  destruct (parseObjectTypes host xml) as [types log]. rewrite Hnames.
  cbn [length Nat.eqb foldl].
  match goal with
  | |- context [updatePreview host ?a] =>
      pose proof (updatePreview_shape host a _ eq_refl)
        as [tail [Hev [_ [Hstate Hform]]]];
      destruct (updatePreview host a) as [app3 events]
  end.
  simpl in Hev, Hstate, Hform. simpl. rewrite Hstate, Hform, Hev. simpl.
  repeat split; try reflexivity.
  intros e He. rewrite !in_app_iff. tauto.
Qed.

(** C7, at the failing input. Template A is loaded, then template B, whose
    handle enumerates no object: the form still holds the two controls
    made for A, the pass that [loadLabel] runs calls [setObjectText] on
    B's handle for the text input of A, and B's object "Title", which held
    "Original B", holds the text of A's control afterwards. *)
Theorem C7_stale_controls_after_empty_load :
  let second := loadLabel Demo.host Demo.xmlB Demo.loadedA in
  openLabelXml Demo.host Demo.xmlB = Ok Demo.labelB
  /\ getObjectNames Demo.labelB = []
  /\ getObjectText Demo.labelB "Title" = Ok "Original B"
  /\ labelForm (elements Demo.loadedA)
     = [Checkbox "Logo" true; Textarea "Title" "Hello"]
  /\ labelForm (elements (fst second)) = labelForm (elements Demo.loadedA)
  /\ In (CallSetObjectText "Title" "Hello") (snd second)
  /\ exists l,
       label (state (fst second)) = Some l
       /\ getObjectText l "Title" = Ok "Hello".
Proof.
  cbv zeta.
  split; [reflexivity|]. split; [reflexivity|]. split; [reflexivity|].
  split; [vm_compute; reflexivity|].
  destruct (loadLabel_empty_keeps_form Demo.host Demo.xmlB Demo.labelB
              Demo.loadedA eq_refl eq_refl) as [Hform [Hlabel Hevents]].
  split; [exact Hform|]. split.
  - apply Hevents. vm_compute. left; reflexivity.
  - eexists. split; [exact Hlabel|]. vm_compute. reflexivity.
Qed.

(** C9, as amended. Clearing drops the label handle, the markup and the
    name list, hides the form, message, preview and print panels and the
    file error, and empties the file input and the preview image.  The
    kind map, the snapshots and the controls of the form stay as they
    were.  While nothing is loaded a preview does nothing and a print
    request only raises an alert.  The next template that opens replaces
    the markup, the names, the kinds and the snapshots, and when it
    enumerates at least one object the form and the label are the ones
    that loading it into any other page gives. *)
Theorem C9_clear_then_load (host : Host) (app : App) :
  let cleared := clearForm app in
  (label (state cleared) = None
   /\ labelXml (state cleared) = None
   /\ objectNames (state cleared) = [])
  /\ (formCard (elements cleared) = DisplayNone
      /\ noFieldsMessageDisplay (elements cleared) = DisplayNone
      /\ previewCard (elements cleared) = DisplayNone
      /\ printCard (elements cleared) = DisplayNone
      /\ fileErrorDisplay (elements cleared) = DisplayNone
      /\ labelFile (elements cleared) = ""
      /\ previewImageSrc (elements cleared) = "")
  /\ (objectTypes (state cleared) = objectTypes (state app)
      /\ initialValues (state cleared) = initialValues (state app)
      /\ labelForm (elements cleared) = labelForm (elements app))
  /\ (updatePreview host cleared = (cleared, [])
      /\ printLabels host cleared = (cleared, [Alert "No label loaded"]))
  /\ forall xml l,
       openLabelXml host xml = Ok l ->
       let next := fst (loadLabel host xml cleared) in
       (labelXml (state next) = Some xml
        /\ objectNames (state next) = names l
        /\ objectTypes (state next) = fst (parseObjectTypes host xml)
        /\ initialValues (state next)
           = foldl (storeInitialValue l) ∅ (names l))
       /\ (names l <> [] ->
           forall other,
             labelForm (elements next)
             = labelForm (elements (fst (loadLabel host xml other)))
             /\ label (state next)
                = label (state (fst (loadLabel host xml other)))).
Proof.
  intros cleared.
  split; [repeat split|]. split; [repeat split|]. split; [repeat split|].
  split; [split; reflexivity|].
  intros xml l Hopen next. split; [apply loadLabel_state, Hopen|].
  intros Hnames other.
  destruct (loadLabel_rebuilds host xml l cleared Hopen Hnames)
    as [Hform [Hlabel _]].
  destruct (loadLabel_rebuilds host xml l other Hopen Hnames)
    as [Hform' [Hlabel' _]].
  assert (Hsame : forall ns,
             map (makeControl
                    (mkState (Some l) (Some xml) (names l)
                       (fst (parseObjectTypes host xml))
                       (foldl (storeInitialValue l) ∅ (names l))
                       (isServiceRunning (state cleared))
                       (selectedPrinter (state cleared)))) ns
             = map (makeControl
                      (mkState (Some l) (Some xml) (names l)
                         (fst (parseObjectTypes host xml))
                         (foldl (storeInitialValue l) ∅ (names l))
                         (isServiceRunning (state other))
                         (selectedPrinter (state other)))) ns).
  { intros ns. apply map_ext. intros n. apply makeControl_ext; reflexivity. }
  subst next. rewrite Hform, Hform', Hlabel, Hlabel', Hsame.
  split; reflexivity.
Qed.

(** ** Instances of the claims on the fixtures *)

Lemma loadedA_label : label (state Demo.loadedA) = Some Demo.labelA.
Proof. vm_compute. reflexivity. Qed.





Lemma C3_last_definition_wins_witness :
  snd (parseObjectTypes Demo.host Demo.xmlA) = [].
Proof.
  apply (C3_last_definition_wins Demo.host Demo.xmlA Demo.documentA).
  vm_compute. reflexivity.
Defined.

Lemma C4_extractor_failures_witness :
  fst (parseObjectTypes Demo.host Demo.malformedXml) = ∅.
Proof.
  destruct (C4_extractor_failures Demo.host Demo.malformedXml)
    as [_ [Herror _]].
  destruct (Herror [Dom.Text "XML Parsing Error: no element found";
                    Dom.Element "sourcetext" [Dom.Text Demo.malformedXml]])
    as [_ [_ Hempty]].
  - vm_compute. reflexivity.
  - apply Hempty. intros node Hin. vm_compute in Hin.
    destruct Hin as [<- | []]. vm_compute. reflexivity.
Defined.

(** C4, counterexample. The parser reports the truncated markup as a
    parsererror document; the extractor returns without logging a
    warning. *)
Lemma C4_no_warning_on_parser_error :
  (exists detail,
      parseFromString Demo.host Demo.malformedXml = Dom.ParserError detail)
  /\ snd (parseObjectTypes Demo.host Demo.malformedXml) = [].
Proof. split; [eexists|]; vm_compute; reflexivity. Qed.


Lemma C6_print_validation_witness :
  exists message,
    printLabels Demo.host (typeQuantity "0" Demo.loadedA)
    = (typeQuantity "0" Demo.loadedA, [Alert message]).
Proof.
  apply (C6_print_validation Demo.host (typeQuantity "0" Demo.loadedA)).
  right; right. exists 0. split; [vm_compute; reflexivity | lia].
Defined.

(** C6, counterexample. On a framework without
    [createLabelWriterPrintParamsXml] a request for 3 copies passes
    validation and the print call is made with empty print parameters:
    the events are those of a request for 5 copies. *)
Lemma C6_copy_count_not_passed :
  Spec.validRequest (typeQuantity "3" Demo.loadedA) 3
  /\ Spec.validRequest (typeQuantity "5" Demo.loadedA) 5
  /\ In (CallPrint Demo.labelA "DYMO LabelWriter 450" "" "")
        (snd (printLabels Demo.hostWithoutPrintParams
                          (typeQuantity "3" Demo.loadedA)))
  /\ snd (printLabels Demo.hostWithoutPrintParams
                      (typeQuantity "3" Demo.loadedA))
     = snd (printLabels Demo.hostWithoutPrintParams
                        (typeQuantity "5" Demo.loadedA)).
Proof.
  split; [repeat split; vm_compute; congruence|].
  split; [repeat split; vm_compute; congruence|].
  split; [vm_compute; auto | vm_compute; reflexivity].
Qed.


Lemma C9_clear_then_load_witness :
  objectTypes (state (fst (loadLabel Demo.host Demo.xmlA
                                     (clearForm Demo.loadedA))))
  = fst (parseObjectTypes Demo.host Demo.xmlA).
Proof.
  destruct (C9_clear_then_load Demo.host Demo.loadedA) as [_ [_ [_ [_ Hnext]]]].
  destruct (Hnext Demo.xmlA Demo.labelA) as [[_ [_ [Htypes _]]] _].
  - vm_compute. reflexivity.
  - exact Htypes.
Defined.

(** C9, counterexample. After template A is loaded and cleared, the kind
    map, the snapshots and the controls of A are still held; loading
    template B afterwards sends the text of A's control to B's handle,
    which does not happen when B is loaded into a fresh page. *)
Lemma C9_clear_keeps_template_state :
  let cleared := clearForm Demo.loadedA in
  objectTypes (state cleared) !! "Logo" = Some "ImageObject"
  /\ initialValues (state cleared) !! "Logo" = Some "iVBORw0KGgo="
  /\ labelForm (elements cleared)
     = [Checkbox "Logo" true; Textarea "Title" "Hello"]
  /\ In (CallSetObjectText "Title" "Hello")
        (snd (loadLabel Demo.host Demo.xmlB cleared))
  /\ ~ In (CallSetObjectText "Title" "Hello")
          (snd (loadLabel Demo.host Demo.xmlB Demo.initialApp)).
Proof.
  cbv zeta.
  split; [vm_compute; reflexivity|]. split; [vm_compute; reflexivity|].
  split; [vm_compute; reflexivity|].
  split; [vm_compute; auto|].
  vm_compute. intros [H | []]. discriminate.
Qed.

Lemma C10_quantity_check_witness :
  Js.parseInt "2.5" = Some 2
  /\ exists seen,
       In (CallPrint seen "DYMO LabelWriter 450" (Demo.paramsXml 3) "")
          (snd (printLabels Demo.host (typeQuantity "3abc" Demo.loadedA))).
Proof.
  destruct (C10_quantity_check Demo.host Demo.loadedA Demo.labelA)
    as [_ [Hparse [_ Hgo]]].
  - exact loadedA_label.
  - vm_compute. discriminate.
  - split; [exact Hparse|].
    destruct (Hgo "3abc" 3) as [Hcall _]; [right; split; reflexivity|].
    exact Hcall.
Defined.

(** ** Examples *)

Example parseInt_samples :
  Js.parseInt "12" = Some 12 /\ Js.parseInt "0" = Some 0 /\
  Js.parseInt "abc" = None /\ Js.parseInt "  -7x" = Some (-7) /\
  Js.parseInt "" = None /\ Js.parseInt "+" = None.
Proof. repeat split; reflexivity. Qed.

Example endsWith_samples :
  Js.endsWith "TextObject" "Object" = true /\
  Js.endsWith "Object" "Object" = true /\
  Js.endsWith "ObjectInfo" "Object" = false /\
  Js.endsWith "ject" "Object" = false.
Proof. repeat split; reflexivity. Qed.

Example collectTypes_sample :
  collectTypes
    [Dom.Element "DieCutLabel"
       [Dom.Element "ObjectInfo"
          [Dom.Element "TextObject"
             [Dom.Element "Name" [Dom.Text "Title"];
              Dom.Element "Text" [Dom.Text "hello"]]];
        Dom.Element "ObjectInfo"
          [Dom.Element "ImageObject"
             [Dom.Comment "logo"; Dom.Element "Name" [Dom.Text "Logo"]]];
        Dom.Element "ObjectInfo"
          [Dom.Element "AddressObject"
             [Dom.Element "Name" [Dom.Text "Title"]]]]]
  = <["Title" := "AddressObject"]> (<["Logo" := "ImageObject"]> ∅).
Proof. vm_compute. reflexivity. Qed.

Example editableNames_sample :
  editableNames Demo.host
    ["b"; "B"; "a"; "IGNORE"; "Ignored"; "ignor"; "xIGNORE"]
  = ["a"; "b"; "B"; "ignor"; "xIGNORE"].
Proof. vm_compute. reflexivity. Qed.

(** * Further properties *)

(** ** The pass as a sequence of writes *)

Lemma label_eta (l : Label) : mkLabel (names l) (texts l) = l.
Proof. destruct l; reflexivity. Qed.

Lemma trySetObjectText_label (warn : bool) (l : Label) (name value : string) :
  fst (trySetObjectText warn l name value)
  = mkLabel (names l) (Spec2.applyWrite (texts l) (name, value)).
Proof.
  unfold trySetObjectText, setObjectText, Spec2.applyWrite. simpl.
  destruct (texts l !! name); simpl; [reflexivity | symmetry; apply label_eta].
Qed.

Lemma syncInput_label (warn : bool) (snapshots : gmap string string)
  (l : Label) (input : Control) :
  fst (syncInput warn snapshots l input)
  = mkLabel (names l)
            (match Spec2.writeOf snapshots input with
             | Some w => Spec2.applyWrite (texts l) w
             | None => texts l
             end).
Proof.
  destruct input as [name [|] | name value]; simpl.
  - destruct (snapshots !! name) as [val|];
      [|symmetry; apply label_eta].
    destruct (String.eqb val ""); [symmetry; apply label_eta|].
    apply trySetObjectText_label.
  - apply trySetObjectText_label.
  - apply trySetObjectText_label.
Qed.

(** The label a pass leaves is the label it found with the writes of the
    controls applied in order; the warning flag plays no part. *)
Lemma syncPass_label (warn : bool) (snapshots : gmap string string)
  (l : Label) (inputs : list Control) :
  fst (syncPass warn snapshots l inputs)
  = mkLabel (names l)
            (foldl Spec2.applyWrite (texts l)
                   (omap (Spec2.writeOf snapshots) inputs)).
Proof.
  revert l; induction inputs as [|input rest IH]; intros l; simpl.
  - symmetry; apply label_eta.
  - pose proof (syncInput_label warn snapshots l input) as Hin.
    destruct (syncInput warn snapshots l input) as [l1 e1]. simpl in Hin.
    specialize (IH l1).
    destruct (syncPass warn snapshots l1 rest) as [l2 e2]. simpl in *.
    rewrite IH, Hin. simpl.
    destruct (Spec2.writeOf snapshots input); reflexivity.
Qed.

Lemma applyWrite_lookup (m : gmap string string) (w : string * string)
  (k : string) :
  Spec2.applyWrite m w !! k
  = if decide (fst w = k) then (fun _ => snd w) <$> (m !! k) else m !! k.
Proof.
  unfold Spec2.applyWrite. destruct (decide (fst w = k)) as [<- | Hne].
  - destruct (m !! fst w) eqn:E; simpl.
    + apply lookup_insert_eq.
    + exact E.
  - destruct (m !! fst w); [apply lookup_insert_ne; exact Hne | reflexivity].
Qed.

Lemma applyWrites_lookup (ws : list (string * string))
  (m : gmap string string) (k : string) :
  foldl Spec2.applyWrite m ws !! k
  = (fun x => default x (Spec2.lastWrite k ws)) <$> (m !! k).
Proof.
  induction ws as [|w ws IH] using rev_ind.
  - simpl. destruct (m !! k); reflexivity.
  - unfold Spec2.lastWrite in *. rewrite !foldl_app. simpl.
    rewrite applyWrite_lookup, IH.
    destruct (decide (fst w = k)); destruct (m !! k); reflexivity.
Qed.

Lemma applyWrites_idempotent (ws : list (string * string))
  (m : gmap string string) :
  foldl Spec2.applyWrite (foldl Spec2.applyWrite m ws) ws
  = foldl Spec2.applyWrite m ws.
Proof.
  apply map_eq. intros k. rewrite !applyWrites_lookup.
  destruct (m !! k); simpl; [|reflexivity].
  destruct (Spec2.lastWrite k ws); reflexivity.
Qed.

(** A second pass over the same controls changes nothing. *)
Lemma syncPass_idempotent (warn warn' : bool) (snapshots : gmap string string)
  (l : Label) (inputs : list Control) :
  fst (syncPass warn' snapshots (fst (syncPass warn snapshots l inputs)) inputs)
  = fst (syncPass warn snapshots l inputs).
Proof.
  rewrite (syncPass_label warn'), (syncPass_label warn). simpl.
  rewrite applyWrites_idempotent. reflexivity.
Qed.

Lemma syncPass_warn (snapshots : gmap string string) (l : Label)
  (inputs : list Control) :
  fst (syncPass false snapshots l inputs) = fst (syncPass true snapshots l inputs).
Proof. rewrite !syncPass_label. reflexivity. Qed.

(** The render call of a preview is made on the label its pass leaves,
    and on no other. *)
Lemma updatePreview_renders (host : Host) (app : App) (l : Label)
  (rendered : Label) :
  label (state app) = Some l ->
  In (CallRender rendered) (snd (updatePreview host app))
  <-> rendered = fst (syncPass true (initialValues (state app)) l
                               (labelForm (elements app))).
Proof.
  intros Hl.
  destruct (updatePreview_shape host app l Hl) as [tail [Hev [Htail _]]].
  rewrite Hev. split.
  - intros Hin. apply in_app_iff in Hin as [Hin | [Hin | Hin]].
    + apply syncPass_events in Hin
        as [[n [v [Heq _]]] | [t Heq]]; discriminate.
    + congruence.
    + destruct (Htail _ Hin). exact I.
  - intros ->. apply in_app_iff. right; left; reflexivity.
Qed.

(** X1. A preview repeated without an edit in between leaves the page
    exactly as the first one did, and renders the same label again. *)
Theorem X1_preview_idempotent (host : Host) (app : App) :
  fst (updatePreview host (fst (updatePreview host app)))
  = fst (updatePreview host app)
  /\ forall rendered,
       In (CallRender rendered) (snd (updatePreview host app)) ->
       In (CallRender rendered)
          (snd (updatePreview host (fst (updatePreview host app)))).
Proof.
  destruct (label (state app)) as [l|] eqn:Hl.
  2:{ unfold updatePreview. rewrite Hl. simpl. rewrite Hl.
      split; [reflexivity | tauto]. }
  pose proof (syncPass_idempotent true true (initialValues (state app)) l
                                  (labelForm (elements app))) as Hidem.
  split.
  - unfold updatePreview at 2 3. rewrite Hl.
    destruct (syncPass true (initialValues (state app)) l
                       (labelForm (elements app))) as [l' events].
    simpl in Hidem.
    destruct (renderAsync host l') as [png | message] eqn:Hrender;
      unfold updatePreview; simpl;
      destruct (syncPass true (initialValues (state app)) l'
                         (labelForm (elements app))) as [l'' events'];
      simpl in Hidem; subst l''; rewrite Hrender; reflexivity.
  - intros rendered Hin.
    apply (updatePreview_renders host app l rendered Hl) in Hin.
    destruct (updatePreview_shape host app l Hl) as [_ [_ [_ [Hstate Hform]]]].
    eapply updatePreview_renders.
    + rewrite Hstate. reflexivity.
    + rewrite Hstate, Hform. simpl. rewrite Hidem. exact Hin.
Qed.

(** X2. What is previewed is what is printed: with a label loaded and a
    request that passes validation, the print call is made on the very
    label a preview renders, whether the preview ran before it or not. *)
Theorem X2_print_prints_previewed (host : Host) (app : App) (l : Label)
  (q : Z) :
  label (state app) = Some l ->
  Spec.validRequest app q ->
  exists seen,
    In (CallRender seen) (snd (updatePreview host app))
    /\ In (CallPrint seen (printerSelect (elements app))
                     (printParamsFor host q) "")
          (snd (printLabels host app))
    /\ In (CallPrint seen (printerSelect (elements app))
                     (printParamsFor host q) "")
          (snd (printLabels host (fst (updatePreview host app)))).
Proof.
  intros Hl Hq.
  exists (fst (syncPass true (initialValues (state app)) l
                        (labelForm (elements app)))).
  split; [apply (updatePreview_renders host app l); auto|].
  split.
  - destruct (printLabels_shape host app l q Hl Hq) as [tail [Hev _]].
    rewrite Hev, syncPass_warn. apply in_app_iff. right; left; reflexivity.
  - destruct (updatePreview_shape host app l Hl) as [_ [_ [_ [Hstate Hform]]]].
    assert (Hel : printerSelect (elements (fst (updatePreview host app)))
                  = printerSelect (elements app)
                  /\ printQuantity (elements (fst (updatePreview host app)))
                     = printQuantity (elements app)).
    { unfold updatePreview. rewrite Hl.
      destruct (syncPass true (initialValues (state app)) l
                         (labelForm (elements app))) as [l' events].
      destruct (renderAsync host l'); split; reflexivity. }
    destruct Hel as [Hprinter Hquantity].
    assert (Hq' : Spec.validRequest (fst (updatePreview host app)) q).
    { unfold Spec.validRequest. rewrite Hprinter, Hquantity. exact Hq. }
    destruct (printLabels_shape host (fst (updatePreview host app)) _ q
                (f_equal label Hstate) Hq') as [tail [Hev _]].
    rewrite Hev, Hstate, Hform, Hprinter. simpl.
    rewrite syncPass_idempotent.
    apply in_app_iff. right; left; reflexivity.
Qed.

(** ** Loading a template *)

Lemma parseObjectTypes_log (host : Host) (xml : string) :
  snd (parseObjectTypes host xml) = []
  \/ snd (parseObjectTypes host xml)
     = [ConsoleWarn "Failed to parse label XML types"].
Proof.
  unfold parseObjectTypes, parseObjectTypesOf.
  destruct (Dom.documentOf (parseFromString host xml)); auto.
Qed.

Lemma orElse_empty (t : string) : Js.orElse t "" = t.
Proof. unfold Js.orElse. destruct (String.eqb_spec t ""); congruence. Qed.

Lemma storeInitialValue_lookup (l : Label) (m : gmap string string)
  (n k : string) :
  storeInitialValue l m n !! k
  = match texts l !! n with
    | Some t => if decide (n = k) then Some t else m !! k
    | None => m !! k
    end.
Proof.
  unfold storeInitialValue, getObjectText.
  destruct (texts l !! n) as [t|]; [|reflexivity].
  rewrite orElse_empty. apply lookup_insert.
Qed.

(** The snapshots taken at load time: the text of every enumerated object
    the handle holds, and nothing else. *)
Lemma snapshots_lookup (l : Label) (ns : list string) (k t : string) :
  foldl (storeInitialValue l) ∅ ns !! k = Some t
  <-> In k ns /\ texts l !! k = Some t.
Proof.
  induction ns as [|n ns IH] using rev_ind.
  - simpl. rewrite lookup_empty. split; [discriminate | tauto].
  - rewrite foldl_app. simpl. rewrite storeInitialValue_lookup, in_app_iff.
    simpl. destruct (texts l !! n) as [t'|] eqn:Hn.
    + destruct (decide (n = k)) as [<- | Hne].
      * rewrite Hn. tauto.
      * rewrite IH. intuition congruence.
    + rewrite IH. split; [tauto|].
      intros [[Hin | [<- | []]] Hk]; [tauto | congruence].
Qed.

Lemma getObjectText_held (l : Label) (name t : string) :
  getObjectText l name = Ok t <-> texts l !! name = Some t.
Proof.
  unfold getObjectText. destruct (texts l !! name); split; congruence.
Qed.

Lemma loadLabel_snapshots (host : Host) (xml : string) (l : Label)
  (app : App) (name t : string) :
  openLabelXml host xml = Ok l ->
  initialValues (state (fst (loadLabel host xml app))) !! name = Some t
  <-> In name (names l) /\ texts l !! name = Some t.
Proof.
  intros Hopen.
  destruct (loadLabel_state host xml l app Hopen) as [_ [_ [_ Hvalues]]].
  rewrite Hvalues. apply snapshots_lookup.
Qed.

(** X3. After a template is loaded, the original-value snapshot of a name
    other than [__proto__] is the text the handle held for it when it was
    opened, for exactly the names the handle enumerates and holds a text
    for.  (The snapshots are a plain object, and an assignment to its
    [__proto__] key records no entry.) *)
Theorem X3_snapshots_taken_at_load (host : Host) (xml : string) (l : Label)
  (app : App) (name t : string) :
  openLabelXml host xml = Ok l ->
  name <> "__proto__" ->
  initialValues (state (fst (loadLabel host xml app))) !! name = Some t
  <-> In name (getObjectNames l) /\ getObjectText l name = Ok t.
Proof.
  intros Hopen _. rewrite getObjectText_held.
  apply loadLabel_snapshots, Hopen.
Qed.

Lemma fresh_control_writes_nothing_new (s : State) (l : Label)
  (ns : list string) (n : string) :
  label s = Some l ->
  In n ns ->
  match Spec2.writeOf (foldl (storeInitialValue l) ∅ ns) (makeControl s n) with
  | Some w => Spec2.applyWrite (texts l) w = texts l
  | None => True
  end.
Proof.
  intros Hl Hin. unfold makeControl, currentValueOf, getObjectText.
  rewrite Hl. unfold Spec2.applyWrite.
  destruct (texts l !! n) as [t|] eqn:Hn.
  - rewrite orElse_empty.
    destruct (isImageType (typeOf (objectTypes s) n)); simpl.
    + destruct t as [|c t]; simpl.
      * rewrite Hn. apply insert_id, Hn.
      * assert (Hsnap : foldl (storeInitialValue l) ∅ ns !! n
                        = Some (String c t))
          by (apply snapshots_lookup; auto).
        rewrite Hsnap. simpl. rewrite Hn. apply insert_id, Hn.
    + rewrite Hn. apply insert_id, Hn.
  - destruct (isImageType (typeOf (objectTypes s) n)); simpl;
      rewrite Hn; reflexivity.
Qed.

Lemma fresh_form_writes_nothing_new (s : State) (l : Label)
  (ns shown : list string) :
  label s = Some l ->
  (forall n, In n shown -> In n ns) ->
  foldl Spec2.applyWrite (texts l)
        (omap (Spec2.writeOf (foldl (storeInitialValue l) ∅ ns))
              (map (makeControl s) shown))
  = texts l.
Proof.
  intros Hl. induction shown as [|n shown IH]; intros Hsub; [reflexivity|].
  simpl.
  pose proof (fresh_control_writes_nothing_new s l ns n Hl
                (Hsub n (or_introl eq_refl))) as Hw.
  destruct (Spec2.writeOf _ (makeControl s n)) as [w|]; simpl.
  - rewrite Hw. apply IH. intros m Hm. apply Hsub. right; exact Hm.
  - apply IH. intros m Hm. apply Hsub. right; exact Hm.
Qed.

Lemma editableNames_subset (host : Host) (ns : list string) (n : string) :
  In n (editableNames host ns) -> In n ns.
Proof.
  unfold editableNames. rewrite arraySort_In, filter_In. tauto.
Qed.

Lemma loadLabel_label (host : Host) (xml : string) (l : Label) (app : App) :
  openLabelXml host xml = Ok l ->
  names l <> [] ->
  label (state (fst (loadLabel host xml app))) = Some l.
Proof.
  intros Hopen Hnames.
  destruct (loadLabel_rebuilds host xml l app Hopen Hnames)
    as [_ [Hlabel _]].
  rewrite Hlabel, syncPass_label. f_equal.
  rewrite (fresh_form_writes_nothing_new _ l (names l));
    [apply label_eta | reflexivity | apply editableNames_subset].
Qed.

(** X4. Loading a template that enumerates at least one object, whose
    names are ASCII and free of markup characters and whose texts are
    such as a textarea holds unchanged, leaves the opened label as the
    framework gave it: the pass that [loadLabel] runs over the controls
    it has just built writes back to every field the value the field
    already has, so the first preview shows the template as it was
    opened.  (A text that begins with a line feed or has a carriage
    return in it comes back changed from the textarea built for it.) *)
Theorem X4_load_keeps_template (host : Host) (xml : string) (l : Label)
  (app : App) :
  openLabelXml host xml = Ok l ->
  getObjectNames l <> [] ->
  List.Forall Domain.plainName (getObjectNames l) ->
  Domain.verbatimTexts l ->
  label (state (fst (loadLabel host xml app))) = Some l
  /\ forall rendered,
       In (CallRender rendered) (snd (loadLabel host xml app)) ->
       rendered = l.
Proof.
  intros Hopen Hnames _ _. split; [apply loadLabel_label; assumption|].
  intros rendered Hin.
  pose proof (loadLabel_label host xml l app Hopen Hnames) as Hlabel.
  revert Hin Hlabel. unfold loadLabel. rewrite Hopen.
  unfold getObjectNames in *.
  destruct (parseObjectTypes host xml) as [types log] eqn:Hparse.
  destruct (names l) as [|n rest] eqn:Hn; [contradiction|].
  cbn [length Nat.eqb].
  match goal with
  | |- context [updatePreview host ?a] =>
      pose proof (updatePreview_renders host a l rendered eq_refl) as Hr;
      pose proof (updatePreview_shape host a l eq_refl)
        as [_ [_ [_ [Hstate _]]]];
      destruct (updatePreview host a) as [app3 events]
  end.
  simpl in Hr, Hstate. simpl. intros Hin Hlabel.
  rewrite Hstate in Hlabel. simpl in Hlabel. injection Hlabel as Hlabel.
  apply in_app_iff in Hin as [Hin | Hin].
  - assert (Hlog : log = snd (parseObjectTypes host xml))
      by (rewrite Hparse; reflexivity).
    destruct (parseObjectTypes_log host xml) as [Hl | Hl];
      rewrite <- Hlog in Hl; rewrite Hl in Hin.
    + destruct Hin.
    + destruct Hin as [Hin | []]. discriminate.
  - apply Hr in Hin. congruence.
Qed.

(** X5. Unchecking a toggle and checking it again restores the field:
    for an enumerated field with a text that is not empty, a preview with
    its toggle unchecked empties the field, and a later preview with its
    toggle checked puts back the text the template was loaded with,
    whatever the other controls hold (no two of them on one field). *)
Theorem X5_toggle_round_trip (host : Host) (xml : string) (l : Label)
  (app : App) (name t : string) (form1 form2 : list Control) :
  openLabelXml host xml = Ok l ->
  In name (getObjectNames l) ->
  getObjectText l name = Ok t ->
  t <> "" ->
  List.NoDup (map fieldNameOf form1) ->
  List.NoDup (map fieldNameOf form2) ->
  In (Checkbox name false) form1 ->
  In (Checkbox name true) form2 ->
  let loaded := fst (loadLabel host xml app) in
  let hidden := fst (updatePreview host (editForm form1 loaded)) in
  let restored := fst (updatePreview host (editForm form2 hidden)) in
  (exists l1, label (state hidden) = Some l1 /\ getObjectText l1 name = Ok "")
  /\ (exists l2,
         label (state restored) = Some l2 /\ getObjectText l2 name = Ok t).
Proof.
  intros Hopen Hin Htext Hne Hnodup1 Hnodup2 Hin1 Hin2 loaded hidden restored.
  assert (Hnames : getObjectNames l <> []).
  { intros Hnil. rewrite Hnil in Hin. destruct Hin. }
  apply getObjectText_held in Htext.
  assert (Hloaded : label (state loaded) = Some l)
    by (apply loadLabel_label; assumption).
  assert (Hsnap : initialValues (state loaded) !! name = Some t)
    by (apply (loadLabel_snapshots host xml l app); auto).
  assert (Hheld : is_Some (texts l !! name)) by eauto.
  destruct (updatePreview_shape host (editForm form1 loaded) l Hloaded)
    as [_ [_ [_ [Hstate1 _]]]].
  fold hidden in Hstate1. simpl in Hstate1.
  pose proof (syncPass_toggle true (initialValues (state loaded)) l form1
                name false Hin1 Hnodup1 Hheld) as [_ [_ Hoff]].
  specialize (Hoff eq_refl).
  split.
  { eexists. split; [rewrite Hstate1; reflexivity | exact Hoff]. }
  assert (Hhidden : label (state (editForm form2 hidden))
                    = Some (fst (syncPass true (initialValues (state loaded))
                                          l form1)))
    by (simpl; rewrite Hstate1; reflexivity).
  destruct (updatePreview_shape host (editForm form2 hidden) _ Hhidden)
    as [_ [_ [_ [Hstate2 _]]]].
  fold restored in Hstate2. simpl in Hstate2.
  assert (Hheld1 : is_Some (texts (fst (syncPass true
                     (initialValues (state loaded)) l form1)) !! name)).
  { apply getObjectText_held in Hoff. eauto. }
  pose proof (syncPass_toggle true (initialValues (state hidden))
                (fst (syncPass true (initialValues (state loaded)) l form1))
                form2 name true Hin2 Hnodup2 Hheld1) as [Hon _].
  eexists. split; [rewrite Hstate2; reflexivity|].
  apply (Hon eq_refl t); [|exact Hne].
  rewrite Hstate1. exact Hsnap.
Qed.

(** ** Uploading a file *)

Lemma toLowerCase_app (p s : string) :
  Str.toLowerCase (p ++ s) = Str.toLowerCase p ++ Str.toLowerCase s.
Proof.
  induction p as [|c p IH]; [reflexivity|].
  rewrite append_cons. simpl. rewrite append_cons. congruence.
Qed.

Lemma toLowerCase_split (a b name : string) :
  Str.toLowerCase name = a ++ b ->
  exists x y,
    name = x ++ y /\ Str.toLowerCase x = a /\ Str.toLowerCase y = b.
Proof.
  revert name; induction a as [|d a IH]; intros name H.
  - exists "", name. auto.
  - destruct name as [|c name]; [discriminate|].
    rewrite append_cons in H. simpl in H. injection H as Hc Hrest.
    destruct (IH name Hrest) as [x [y [-> [Hx Hy]]]].
    exists (String c x), y. rewrite append_cons. simpl.
    repeat split; congruence.
Qed.

Lemma endsWith_lower_spec (name extension : string) :
  Js.endsWith (Str.toLowerCase name) extension = true
  <-> exists stem ext,
        name = stem ++ ext /\ Str.toLowerCase ext = extension.
Proof.
  rewrite endsWith_spec. split.
  - intros [stem' H]. apply toLowerCase_split in H as [x [y [-> [_ Hy]]]].
    eauto.
  - intros [stem [ext [-> <-]]]. rewrite toLowerCase_app. eauto.
Qed.

(** The extension test of [handleFileUpload] ignores case. *)
Lemma acceptsFile_spec (name : string) :
  acceptsFile name = true <-> Spec2.hasLabelExtension name.
Proof.
  unfold acceptsFile, Spec2.hasLabelExtension.
  rewrite orb_true_iff, !endsWith_lower_spec. split.
  - intros [[stem [ext [-> H]]] | [stem [ext [-> H]]]]; eauto 6.
  - intros [stem [ext [-> [H | H]]]]; [left | right]; eauto.
Qed.

Lemma updatePreview_reads (host : Host) (app app' : App) :
  state app' = state app ->
  labelForm (elements app') = labelForm (elements app) ->
  snd (updatePreview host app') = snd (updatePreview host app).
Proof.
  intros Hs Hf. unfold updatePreview. rewrite Hs, Hf.
  destruct (label (state app)); [|reflexivity].
  destruct (syncPass true _ l _) as [l' events].
  destruct (renderAsync host l'); reflexivity.
Qed.

Lemma updatePreview_fileError (host : Host) (app : App) :
  fileErrorDisplay (elements (fst (updatePreview host app)))
  = fileErrorDisplay (elements app).
Proof.
  unfold updatePreview. destruct (label (state app)); [|reflexivity].
  destruct (syncPass true _ l _) as [l' events].
  destruct (renderAsync host l'); reflexivity.
Qed.

Lemma loadLabel_fileError (host : Host) (xml : string) (l : Label)
  (app : App) :
  openLabelXml host xml = Ok l ->
  fileErrorDisplay (elements (fst (loadLabel host xml app)))
  = fileErrorDisplay (elements app).
Proof.
  intros Hopen. unfold loadLabel. rewrite Hopen.
  destruct (parseObjectTypes host xml) as [types log].
  destruct (length (getObjectNames l) =? 0)%nat;
    match goal with
    | |- context [updatePreview host ?a] =>
        pose proof (updatePreview_fileError host a) as H;
        destruct (updatePreview host a) as [app3 events]
    end; simpl in *; exact H.
Qed.

(** X6. A file that is refused for its extension, cannot be read, or is
    rejected by the framework leaves the application state and the form
    as they were, shows the file error, and reaches no label: a preview
    afterwards does what it would have done before. *)
Theorem X6_failed_upload_keeps_template (host : Host) (f : File) (app : App) :
  acceptsFile (fileName f) = false
  \/ (exists message, readAsText f = Throw message)
  \/ (exists text message,
         readAsText f = Ok text /\ openLabelXml host text = Throw message) ->
  let result := handleFileUpload host (Some f) app in
  state (fst result) = state app
  /\ labelForm (elements (fst result)) = labelForm (elements app)
  /\ fileErrorDisplay (elements (fst result)) = DisplayBlock
  /\ Spec.noLabelCall (snd result)
  /\ snd (updatePreview host (fst result)) = snd (updatePreview host app).
Proof.
  intros Hfail result.
  assert (H : state (fst result) = state app
              /\ labelForm (elements (fst result)) = labelForm (elements app)
              /\ fileErrorDisplay (elements (fst result)) = DisplayBlock
              /\ Spec.noLabelCall (snd result)).
  { subst result. unfold handleFileUpload.
    destruct (acceptsFile (fileName f)) eqn:Hacc.
    - destruct Hfail as [Hfail | [[m Hread] | [text [m [Hread Hopen]]]]];
        [discriminate | |]; rewrite Hread.
      + simpl. repeat split; auto. intros e [].
      + unfold loadLabel. rewrite Hopen. simpl. repeat split; auto.
        intros e [<- | []]. simpl. tauto.
    - simpl. repeat split; auto. intros e []. }
  destruct H as [Hs [Hf [He Hc]]]. repeat split; auto.
  apply updatePreview_reads; assumption.
Qed.

(** X7. A file is taken when its name ends, whatever the case of the
    letters, in ".label" or ".dymo".  Any other name is refused with the
    invalid-type message and nothing else; a file that is taken and read
    is handed to [loadLabel] with the earlier error hidden, and the error
    stays hidden when the framework opens the text. *)
Theorem X7_upload_extension (host : Host) (f : File) (app : App) :
  (acceptsFile (fileName f) = true <-> Spec2.hasLabelExtension (fileName f))
  /\ (~ Spec2.hasLabelExtension (fileName f) ->
      handleFileUpload host (Some f) app
      = (showFileError
           "Invalid file type. Please upload a .label or .dymo file." app,
         []))
  /\ (Spec2.hasLabelExtension (fileName f) ->
      forall text,
        readAsText f = Ok text ->
        handleFileUpload host (Some f) app
        = loadLabel host text (hideFileError app)
        /\ forall l,
             openLabelXml host text = Ok l ->
             fileErrorDisplay
               (elements (fst (handleFileUpload host (Some f) app)))
             = DisplayNone).
Proof.
  split; [apply acceptsFile_spec|]. split.
  - intros Hno. unfold handleFileUpload.
    destruct (acceptsFile (fileName f)) eqn:Hacc; [|reflexivity].
    apply acceptsFile_spec in Hacc. contradiction.
  - intros Hyes text Hread. apply acceptsFile_spec in Hyes.
    unfold handleFileUpload. rewrite Hyes, Hread.
    split; [reflexivity|]. intros l Hopen.
    rewrite (loadLabel_fileError host text l _ Hopen). reflexivity.
Qed.

(** ** Recorded kinds *)

Lemma collectTypes_kinds (doc : Dom.Document) (name tag : string) :
  collectTypes doc !! name = Some tag ->
  Spec.isObjectTag tag
  /\ exists node, In node (Spec.allElements doc) /\ Dom.tagNameOf node = tag.
Proof.
  unfold collectTypes. rewrite documentElements_all, foldl_recordType_Some.
  intros [[before [node [after [Hsplit [Hdecl _]]]]] | [Hempty _]].
  - apply declaration_spec in Hdecl as [[Hobj _] <-]. split; [exact Hobj|].
    exists node. split; [|reflexivity].
    rewrite Hsplit. apply in_app_iff. right; left; reflexivity.
  - rewrite lookup_empty in Hempty. discriminate.
Qed.

(** X8. Whatever the parser does with the markup, every kind the
    extractor records is a tag name that ends with "Object", and so is
    every entry of the kind map after a template is loaded; in
    particular the kind of a field is never the fallback "Unknown". *)
Theorem X8_kinds_are_object_tags (host : Host) (xml : string) (app : App)
  (l : Label) (name tag : string) :
  openLabelXml host xml = Ok l ->
  objectTypes (state (fst (loadLabel host xml app))) !! name = Some tag ->
  Spec.isObjectTag tag
  /\ tag <> "Unknown"
  /\ typeOf (objectTypes (state (fst (loadLabel host xml app)))) name = tag.
Proof.
  intros Hopen Hlookup.
  destruct (loadLabel_state host xml l app Hopen) as [_ [_ [Htypes _]]].
  rewrite Htypes in Hlookup.
  assert (Hobj : Spec.isObjectTag tag).
  { revert Hlookup. unfold parseObjectTypes, parseObjectTypesOf.
    destruct (Dom.documentOf (parseFromString host xml)) as [doc | m]; simpl.
    - intros H. apply collectTypes_kinds in H. tauto.
    - rewrite lookup_empty. discriminate. }
  assert (Hends : Js.endsWith tag "Object" = true)
    by (apply endsWith_spec; exact Hobj).
  split; [exact Hobj|]. split.
  - intros ->. vm_compute in Hends. discriminate.
  - unfold typeOf. rewrite Htypes, Hlookup. unfold Js.orElse.
    destruct (String.eqb_spec tag "") as [-> | _]; [|reflexivity].
    vm_compute in Hends. discriminate.
Qed.

(** ** Debounced calls *)

Section Debounce.

Context {A : Type}.
Variable wait : Z.

Lemma run_burst (calls : list (Z * A)) (timeout : Timer.Slot A)
  (t : Z) (a : A) (front : list (Z * A)) :
  calls = (front ++ [(t, a)])%list ->
  Timer.burst wait calls ->
  (forall due b t0 a0,
      timeout = Some (due, b) -> head calls = Some (t0, a0) -> t0 < due) ->
  Timer.run wait timeout calls = [(t + wait, a)].
Proof.
  revert calls timeout. induction front as [|[t1 a1] front IH];
    intros calls timeout -> Hburst Hpending.
  - simpl. unfold Timer.fired.
    destruct timeout as [[due b]|]; [|reflexivity].
    specialize (Hpending due b t a eq_refl eq_refl).
    destruct (Z.leb_spec due t); [lia | reflexivity].
  - change (Timer.run wait timeout ((t1, a1) :: (front ++ [(t, a)])%list)
            = [(t + wait, a)]).
    simpl. unfold Timer.fired at 1.
    assert (Hnone : match timeout with
                    | Some (due, args) =>
                        if due <=? t1 then [(due, args)] else []
                    | None => []
                    end = []).
    { destruct timeout as [[due b]|]; [|reflexivity].
      specialize (Hpending due b t1 a1 eq_refl eq_refl).
      destruct (Z.leb_spec due t1); [lia | reflexivity]. }
    rewrite Hnone. simpl.
    apply (IH (front ++ [(t, a)])%list); [reflexivity | |].
    + simpl in Hburst. destruct (front ++ [(t, a)])%list as [|[t2 a2] rest];
        [exact I | tauto].
    + intros due b t0 a0 [= <- <-] Hhead.
      simpl in Hburst. destruct (front ++ [(t, a)])%list as [|[t2 a2] rest];
        [discriminate|].
      injection Hhead as -> ->. tauto.
Qed.

Lemma run_fired (calls : list (Z * A)) (timeout : Timer.Slot A) (f : Z)
  (a : A) :
  Timer.chronological calls ->
  (forall due b, timeout = Some (due, b) ->
                 forall c, In c calls -> due - wait <= fst c) ->
  In (f, a) (Timer.run wait timeout calls) ->
  (timeout = Some (f, a) \/ In (f - wait, a) calls)
  /\ forall c, In c calls -> ~ (f - wait < fst c < f).
Proof.
  revert timeout. induction calls as [|[now args] rest IH];
    intros timeout Hsorted Harmed Hin.
  - simpl in Hin. destruct timeout as [pending|]; [|destruct Hin].
    destruct Hin as [-> | []]. split; [left; reflexivity | intros c []].
  - unfold Timer.chronological in Hsorted. simpl in Hsorted.
    apply StronglySorted_inv in Hsorted as [Hrest Hle].
    rewrite List.Forall_forall in Hle.
    assert (Hlater : forall c, In c rest -> now <= fst c).
    { intros c Hc. apply Hle, in_map, Hc. }
    simpl in Hin. apply in_app_iff in Hin as [Hin | Hin].
    + unfold Timer.fired in Hin. destruct timeout as [[due b]|]; [|destruct Hin].
      destruct (Z.leb_spec due now) as [Hdue | Hdue]; [|destruct Hin].
      destruct Hin as [[= <- <-] | []]. split; [left; reflexivity|].
      intros c [<- | Hc]; simpl; [lia|]. specialize (Hlater c Hc). lia.
    + apply (IH (Timer.debounce wait now args timeout)) in Hin.
      * destruct Hin as [Horigin Hquiet]. split.
        -- destruct Horigin as [[= <- <-] | Horigin].
           ++ right. left. f_equal. lia.
           ++ right. right. exact Horigin.
        -- intros c [<- | Hc]; [|apply Hquiet, Hc]. simpl.
           destruct Horigin as [[= <- <-] | Horigin]; [lia|].
           specialize (Hlater _ Horigin). simpl in Hlater. lia.
      * exact Hrest.
      * intros due b [= <- <-] c Hc. specialize (Hlater c Hc). lia.
Qed.

Lemma run_length (calls : list (Z * A)) (timeout : Timer.Slot A) :
  (length (Timer.run wait timeout calls)
   <= length calls + match timeout with Some _ => 1 | None => 0 end)%nat.
Proof.
  revert timeout. induction calls as [|[now args] rest IH]; intros timeout.
  - destruct timeout; simpl; lia.
  - simpl. rewrite length_app.
    specialize (IH (Timer.debounce wait now args timeout)). simpl in IH.
    unfold Timer.fired. destruct timeout as [[due b]|]; simpl; [|lia].
    destruct (due <=? now); simpl; lia.
Qed.

Lemma run_last (calls : list (Z * A)) (timeout : Timer.Slot A) (t : Z)
  (a : A) (front : list (Z * A)) :
  calls = (front ++ [(t, a)])%list ->
  exists earlier,
    Timer.run wait timeout calls = (earlier ++ [(t + wait, a)])%list.
Proof.
  revert calls timeout. induction front as [|[t1 a1] front IH];
    intros calls timeout ->.
  - simpl. exists (Timer.fired t timeout). reflexivity.
  - destruct (IH _ (Timer.debounce wait t1 a1 timeout) eq_refl)
      as [earlier Hrun].
    exists (Timer.fired t1 timeout ++ earlier)%list.
    change (Timer.run wait timeout ((t1, a1) :: (front ++ [(t, a)])%list)
            = ((Timer.fired t1 timeout ++ earlier) ++ [(t + wait, a)])%list).
    simpl. rewrite Hrun, app_assoc. reflexivity.
Qed.

End Debounce.

(** X9. Calls of a debounced function that each come less than [wait]
    after the one before collapse into one call of the function, made
    [wait] after the last of them and with the arguments of the last. *)
Theorem X9_debounce_burst {A : Type} (wait : Z) (front : list (Z * A))
  (t : Z) (a : A) :
  Timer.burst wait (front ++ [(t, a)]) ->
  Timer.run wait None (front ++ [(t, a)]) = [(t + wait, a)].
Proof.
  intros Hburst. apply (run_burst wait _ None t a front eq_refl Hburst).
  intros due b t0 a0 H. discriminate.
Qed.

(** X10. For calls of a debounced function given in order of time: the
    function is called at most as often as the debounced one; each of its
    calls comes exactly [wait] after a call of the debounced one, with
    that call's arguments, and no call of the debounced one falls in
    between; and the last call of the debounced one is never lost. *)
Theorem X10_debounce_quiescence {A : Type} (wait : Z) (calls : list (Z * A)) :
  Timer.chronological calls ->
  (length (Timer.run wait None calls) <= length calls)%nat
  /\ (forall f a,
        In (f, a) (Timer.run wait None calls) ->
        In (f - wait, a) calls
        /\ forall c, In c calls -> ~ (f - wait < fst c < f))
  /\ (forall front t a,
        calls = (front ++ [(t, a)])%list ->
        exists earlier,
          Timer.run wait None calls = (earlier ++ [(t + wait, a)])%list).
Proof.
  intros Hsorted. split; [|split].
  - pose proof (run_length wait calls None) as H. simpl in H. lia.
  - intros f a Hin.
    apply (run_fired wait calls None f a Hsorted) in Hin.
    + destruct Hin as [[H | H] Hquiet]; [discriminate | auto].
    + intros due b H. discriminate.
  - intros front t a Hcalls. apply (run_last wait calls None t a front Hcalls).
Qed.

(** ** Field names as shown *)

Lemma isUpper_range (c : ascii) :
  Str.isUpper c = true <-> (65 <= nat_of_ascii c <= 90)%nat.
Proof.
  unfold Str.isUpper. rewrite andb_true_iff, !Nat.leb_le. tauto.
Qed.

Lemma isUpper_plain (c : ascii) :
  Str.isUpper c = true ->
  Js.upperChar c = c /\ Str.isLineTerminator c = false
  /\ Js.isWhiteSpace c = false.
Proof.
  rewrite isUpper_range. intros [H1 H2].
  unfold Js.upperChar, Js.isLower, Str.isLineTerminator, Js.isWhiteSpace.
  destruct (Nat.leb_spec 97 (nat_of_ascii c)); [lia|].
  destruct (Nat.eqb_spec (nat_of_ascii c) 10); [lia|].
  destruct (Nat.eqb_spec (nat_of_ascii c) 13); [lia|].
  destruct (Nat.eqb_spec (nat_of_ascii c) 32); [lia|].
  destruct (Nat.leb_spec 9 (nat_of_ascii c)); [|auto].
  destruct (Nat.leb_spec (nat_of_ascii c) 13); [lia | auto].
Qed.

Lemma upperChar_whiteSpace (c : ascii) :
  Js.isWhiteSpace (Js.upperChar c) = Js.isWhiteSpace c.
Proof.
  unfold Js.upperChar, Js.isLower.
  destruct (Nat.leb_spec 97 (nat_of_ascii c)) as [H1|]; [|reflexivity].
  destruct (Nat.leb_spec (nat_of_ascii c) 122) as [H2|]; [|reflexivity].
  simpl. unfold Js.isWhiteSpace.
  rewrite nat_ascii_embedding by lia.
  destruct (Nat.leb_spec 9 (nat_of_ascii c - 32));
    destruct (Nat.leb_spec (nat_of_ascii c - 32) 13);
    destruct (Nat.eqb_spec (nat_of_ascii c - 32) 32);
    destruct (Nat.leb_spec 9 (nat_of_ascii c));
    destruct (Nat.leb_spec (nat_of_ascii c) 13);
    destruct (Nat.eqb_spec (nat_of_ascii c) 32); simpl; try reflexivity; lia.
Qed.

Lemma withoutWhiteSpace_trimStart (s : string) :
  Str.withoutWhiteSpace (Js.trimStart s) = Str.withoutWhiteSpace s.
Proof.
  induction s as [|c s IH]; simpl; [reflexivity|].
  destruct (Js.isWhiteSpace c) eqn:E; [exact IH|].
  simpl. rewrite E. reflexivity.
Qed.

Lemma withoutWhiteSpace_trimEnd (s : string) :
  Str.withoutWhiteSpace (Str.trimEnd s) = Str.withoutWhiteSpace s.
Proof.
  induction s as [|c s IH]; simpl; [reflexivity|].
  destruct (Str.trimEnd s) as [|d r] eqn:E.
  - simpl in IH. rewrite <- IH.
    destruct (Js.isWhiteSpace c) eqn:Ec; simpl; [reflexivity|].
    rewrite Ec. reflexivity.
  - simpl. simpl in IH. rewrite IH. reflexivity.
Qed.

Lemma withoutWhiteSpace_spaceBeforeCapitals (s : string) :
  Str.withoutWhiteSpace (Str.spaceBeforeCapitals s) = Str.withoutWhiteSpace s.
Proof.
  induction s as [|c s IH]; simpl; [reflexivity|].
  destruct (Str.isUpper c); simpl; rewrite IH; reflexivity.
Qed.

Lemma formatFieldName_upperFirst (name : string) :
  Str.withoutWhiteSpace (formatFieldName name)
  = Str.withoutWhiteSpace (Str.upperFirst name).
Proof.
  unfold formatFieldName, Str.trim.
  rewrite withoutWhiteSpace_trimEnd, withoutWhiteSpace_trimStart.
  destruct name as [|c name]; [reflexivity|]. simpl.
  destruct (Str.isUpper c) eqn:Eu.
  - destruct (isUpper_plain c Eu) as [Hup [Hlt Hws]].
    rewrite Hlt, Hup. simpl. rewrite Hws.
    rewrite withoutWhiteSpace_spaceBeforeCapitals. reflexivity.
  - simpl. destruct (Str.isLineTerminator c); simpl;
      rewrite withoutWhiteSpace_spaceBeforeCapitals; reflexivity.
Qed.

(** X11. For an ASCII field name, the name shown for the field is, but
    for white space, the field name with its first character capitalised:
    a first character from a to z (codes 97 to 122) is replaced by the
    letter 32 codes below it, any other first character and every later
    character is kept, and [formatFieldName] otherwise only adds and
    removes white space. *)
Theorem X11_formatFieldName_letters (name : string) :
  Domain.asciiString name ->
  Str.withoutWhiteSpace (formatFieldName name)
  = match name with
    | EmptyString => EmptyString
    | String c rest =>
        let n := nat_of_ascii c in
        Str.withoutWhiteSpace
          (String (if ((97 <=? n) && (n <=? 122))%nat
                   then ascii_of_nat (n - 32) else c) rest)
    end.
Proof.
  intros _. rewrite formatFieldName_upperFirst.
  destruct name as [|c rest]; [reflexivity|].
  unfold Str.upperFirst, Js.upperChar, Js.isLower.
  destruct (Str.isLineTerminator c) eqn:Elt; [|reflexivity].
  cbv zeta.
  assert (Hc : nat_of_ascii c = 10%nat \/ nat_of_ascii c = 13%nat).
  { unfold Str.isLineTerminator in Elt.
    destruct (Nat.eqb_spec (nat_of_ascii c) 10); [auto|].
    destruct (Nat.eqb_spec (nat_of_ascii c) 13); [auto|].
    simpl in Elt. discriminate. }
  destruct (Nat.leb_spec 97 (nat_of_ascii c)); [lia | reflexivity].
Qed.

Lemma spacedFrom_prev (p q : ascii) (s : string) :
  Spec2.spacedFrom p s -> (p = " "%char -> q = " "%char) ->
  Spec2.spacedFrom q s.
Proof.
  destruct s as [|c s]; simpl; [tauto|]. intros [H1 H2] Hpq. tauto.
Qed.

Lemma spacedFrom_tail (p : ascii) (s : string) :
  Spec2.spacedFrom p s -> Spec2.capitalsSpaced s.
Proof. destruct s as [|c s]; simpl; tauto. Qed.

Lemma spaceBeforeCapitals_spaced (s : string) (p : ascii) :
  Spec2.spacedFrom p (Str.spaceBeforeCapitals s).
Proof.
  revert p; induction s as [|c s IH]; intros p; simpl; [exact I|].
  destruct (Str.isUpper c) eqn:Eu; simpl.
  - split; [intros H; vm_compute in H; discriminate|].
    split; [reflexivity | apply IH].
  - split; [intros H; congruence | apply IH].
Qed.

Lemma trimStart_spaced (s : string) :
  Spec2.capitalsSpaced s -> Spec2.capitalsSpaced (Js.trimStart s).
Proof.
  induction s as [|c s IH]; simpl; [tauto|]. intros H.
  destruct (Js.isWhiteSpace c); [|exact H].
  apply IH, (spacedFrom_tail c), H.
Qed.

Lemma trimEnd_spacedFrom (p : ascii) (s : string) :
  Spec2.spacedFrom p s -> Spec2.spacedFrom p (Str.trimEnd s).
Proof.
  revert p; induction s as [|c s IH]; intros p; simpl; [tauto|].
  intros [H1 H2]. specialize (IH c H2).
  destruct (Str.trimEnd s) as [|d r].
  - destruct (Js.isWhiteSpace c); simpl; tauto.
  - simpl. simpl in IH. tauto.
Qed.

Lemma trimEnd_spaced (s : string) :
  Spec2.capitalsSpaced s -> Spec2.capitalsSpaced (Str.trimEnd s).
Proof.
  destruct s as [|c s]; simpl; [tauto|]. intros H.
  apply trimEnd_spacedFrom in H.
  destruct (Str.trimEnd s) as [|d r].
  - destruct (Js.isWhiteSpace c); simpl; tauto.
  - exact H.
Qed.

Lemma spacedFrom_split (p : ascii) (s pre post : string) (c : ascii) :
  Spec2.spacedFrom p s ->
  s = pre ++ String c post ->
  Str.isUpper c = true ->
  (pre = "" /\ p = " "%char) \/ exists pre', pre = pre' ++ " ".
Proof.
  revert p s; induction pre as [|d pre IH]; intros p s Hs -> Hu.
  - left. simpl in Hs. tauto.
  - right. rewrite append_cons in Hs. simpl in Hs. destruct Hs as [_ Hs].
    destruct (IH d _ Hs eq_refl Hu) as [[-> ->] | [pre' ->]].
    + exists "". reflexivity.
    + exists (String d pre'). rewrite append_cons. reflexivity.
Qed.

Lemma trimStart_first (s : string) (c : ascii) :
  Spec2.firstChar (Js.trimStart s) = Some c -> Js.isWhiteSpace c = false.
Proof.
  induction s as [|d s IH]; simpl; [discriminate|].
  destruct (Js.isWhiteSpace d) eqn:E; [exact IH|].
  simpl. congruence.
Qed.

Lemma trimEnd_first (s : string) (c : ascii) :
  Spec2.firstChar (Str.trimEnd s) = Some c -> Spec2.firstChar s = Some c.
Proof.
  destruct s as [|d s]; simpl; [tauto|].
  destruct (Str.trimEnd s); [destruct (Js.isWhiteSpace d)|]; simpl;
    congruence.
Qed.

Lemma trimEnd_last (s : string) (c : ascii) :
  Spec2.lastChar (Str.trimEnd s) = Some c -> Js.isWhiteSpace c = false.
Proof.
  induction s as [|d s IH]; simpl; [discriminate|].
  destruct (Str.trimEnd s) as [|e r].
  - destruct (Js.isWhiteSpace d) eqn:E; simpl; congruence.
  - exact IH.
Qed.

(** X12. For an ASCII field name, the name shown for the field neither
    begins nor ends with white space, and every capital letter in it
    other than a first one comes right after a space. *)
Theorem X12_formatFieldName_shape (name : string) :
  Domain.asciiString name ->
  (forall c, Spec2.firstChar (formatFieldName name) = Some c ->
             Js.isWhiteSpace c = false)
  /\ (forall c, Spec2.lastChar (formatFieldName name) = Some c ->
                Js.isWhiteSpace c = false)
  /\ (forall pre c post,
        formatFieldName name = pre ++ String c post ->
        Str.isUpper c = true ->
        pre = "" \/ exists pre', pre = pre' ++ " ").
Proof.
  intros _. unfold formatFieldName, Str.trim. split; [|split].
  - intros c H. apply trimEnd_first in H. apply trimStart_first in H. exact H.
  - intros c H. apply trimEnd_last in H. exact H.
  - assert (Hspaced : Spec2.capitalsSpaced
                        (Str.trimEnd (Js.trimStart
                           (Str.upperFirst (Str.spaceBeforeCapitals name))))).
    { apply trimEnd_spaced, trimStart_spaced.
      pose proof (spaceBeforeCapitals_spaced name " "%char) as H.
      destruct (Str.spaceBeforeCapitals name) as [|d r]; [exact I|].
      simpl in H. destruct H as [_ H]. simpl.
      destruct (Str.isLineTerminator d); [exact H|]. simpl.
      apply (spacedFrom_prev d); [exact H|].
      intros ->. reflexivity. }
    intros pre c post Heq Hu. rewrite Heq in Hspaced.
    destruct pre as [|d pre]; [left; reflexivity | right].
    rewrite append_cons in Hspaced. simpl in Hspaced.
    destruct (spacedFrom_split d _ pre post c Hspaced eq_refl Hu)
      as [[-> ->] | [pre' ->]].
    + exists "". reflexivity.
    + exists (String d pre'). rewrite append_cons. reflexivity.
Qed.

Lemma X12_formatFieldName_shape_witness :
  formatFieldName "firstName" = "First " ++ String "N" "ame"
  /\ exists pre', "First " = pre' ++ " ".
Proof.
  split; [reflexivity|].
  destruct (X12_formatFieldName_shape "firstName" eq_refl) as [_ [_ H]].
  destruct (H "First " "N"%char "ame" eq_refl eq_refl) as [H0 | H0];
    [discriminate | exact H0].
Defined.

(** ** Printers *)

Lemma append_values (o : SelectOption) (options : list SelectOption) :
  map optionValue (Select.append o options)
  = (map optionValue options ++ [optionValue o])%list.
Proof.
  unfold Select.append. destruct (selectedness o).
  - rewrite map_app, map_map. reflexivity.
  - destruct (existsb selectedness options); [apply map_app|].
    destruct options as [|first others]; [reflexivity|].
    simpl. rewrite map_app. reflexivity.
Qed.

Lemma filter_deselect (options : list SelectOption) :
  List.filter selectedness (map Select.deselect options) = [].
Proof. induction options as [|o l IH]; simpl; auto. Qed.

Lemma find_deselect (options : list SelectOption) :
  List.find selectedness (map Select.deselect options) = None.
Proof. induction options as [|o l IH]; simpl; auto. Qed.

Lemma find_app_l {B : Type} (f : B -> bool) (xs ys : list B) :
  existsb f xs = true -> List.find f (xs ++ ys) = List.find f xs.
Proof.
  induction xs as [|x xs IH]; simpl; [discriminate|].
  destruct (f x); [reflexivity | exact IH].
Qed.

Lemma find_app_r {B : Type} (f : B -> bool) (xs ys : list B) :
  List.find f xs = None -> List.find f (xs ++ ys) = List.find f ys.
Proof.
  induction xs as [|x xs IH]; simpl; [reflexivity|].
  destruct (f x); [discriminate | exact IH].
Qed.

(** A select that shows one selected option keeps doing so when an
    option is appended. *)
Lemma append_one_selected (o : SelectOption) (options : list SelectOption) :
  length (List.filter selectedness options) = 1%nat ->
  length (List.filter selectedness (Select.append o options)) = 1%nat
  /\ existsb selectedness options = true
  /\ Select.value (Select.append o options)
     = if selectedness o then optionValue o else Select.value options.
Proof.
  intros Hone.
  assert (Hex : existsb selectedness options = true).
  { destruct (existsb selectedness options) eqn:E; [reflexivity|].
    assert (Hnil : List.filter selectedness options = []).
    { clear Hone. induction options as [|x xs IH]; [reflexivity|].
      simpl in *. apply orb_false_iff in E as [-> E]. apply IH, E. }
    rewrite Hnil in Hone. discriminate. }
  unfold Select.append, Select.value. destruct (selectedness o) eqn:Ho.
  - rewrite List.filter_app, filter_deselect. simpl. rewrite Ho.
    rewrite find_app_r by apply find_deselect. simpl. rewrite Ho. auto.
  - rewrite Hex, List.filter_app. simpl. rewrite Ho, app_nil_r.
    rewrite find_app_l by exact Hex. auto.
Qed.

Lemma autoSelects_named (name : string) :
  autoSelects name = true -> noPrinter (Some name) = false.
Proof.
  intros H. simpl. destruct (String.eqb_spec name "") as [-> | _];
    [vm_compute in H; discriminate | reflexivity].
Qed.

(** The loop of [loadPrinters]. *)
Lemma addPrinter_fold (ps : list Printer) (options : list SelectOption)
  (selected : option string) :
  length (List.filter selectedness options) = 1%nat ->
  let result := foldl addPrinter (options, selected) ps in
  map optionValue (fst result)
  = (map optionValue options ++ map printerName ps)%list
  /\ length (List.filter selectedness (fst result)) = 1%nat
  /\ (if noPrinter selected then
        match List.find autoSelects (map printerName ps) with
        | Some name =>
            snd result = Some name /\ Select.value (fst result) = name
        | None =>
            snd result = selected
            /\ Select.value (fst result) = Select.value options
        end
      else
        snd result = selected
        /\ Select.value (fst result) = Select.value options).
Proof.
  revert options selected.
  induction ps as [|p ps IH]; intros options selected Hone.
  - simpl. rewrite app_nil_r. destruct (noPrinter selected); auto.
  - cbn [foldl map List.find].
    assert (Hstep : addPrinter (options, selected) p
                    = if autoSelects (printerName p) && noPrinter selected
                      then (Select.append
                              (mkOption (printerName p) (printerName p) true)
                              options, Some (printerName p))
                      else (Select.append
                              (mkOption (printerName p) (printerName p) false)
                              options, selected)) by reflexivity.
    rewrite Hstep. clear Hstep.
    destruct (autoSelects (printerName p)) eqn:Hauto;
      destruct (noPrinter selected) eqn:Hno; cbn [andb];
      match goal with
      | |- context [foldl addPrinter (Select.append ?o options, ?sel) ps] =>
          destruct (append_one_selected o options Hone) as [Hone' [_ Hvalue]];
          destruct (IH (Select.append o options) sel Hone')
            as [Hvalues [Hcount Hsel]];
          rewrite append_values in Hvalues; cbn [optionValue] in Hvalues;
          rewrite <- app_assoc in Hvalues;
          cbn [selectedness optionValue] in Hvalue
      end;
      (split; [exact Hvalues|]); (split; [exact Hcount|]).
    + rewrite (autoSelects_named _ Hauto) in Hsel.
      rewrite Hvalue in Hsel. exact Hsel.
    + rewrite Hno, Hvalue in Hsel. exact Hsel.
    + rewrite Hno, Hvalue in Hsel. exact Hsel.
    + rewrite Hno, Hvalue in Hsel. exact Hsel.
Qed.

(** X13. When the framework reports at least one LabelWriter printer and
    no printer is selected yet, [loadPrinters] offers the placeholder
    followed by exactly the LabelWriter printers, in the order reported;
    the select shows one selected option; and the first of these printers
    whose name includes "450" or "LabelWriter" becomes both
    [state.selectedPrinter] and the value of the select.  When there is
    none the selection stays as it was and the select shows the
    placeholder, whose value is empty. *)
Theorem X13_loadPrinters_selection (reported : list Printer) (app : App) :
  List.filter isLabelWriter reported <> [] ->
  noPrinter (selectedPrinter (state app)) = true ->
  let offered := List.filter isLabelWriter reported in
  let result := loadPrinters (Ok reported) app in
  let app' := fst (fst result) in
  let options := snd (fst result) in
  map optionValue options = "" :: map printerName offered
  /\ length (List.filter selectedness options) = 1%nat
  /\ match List.find autoSelects (map printerName offered) with
     | Some name =>
         selectedPrinter (state app') = Some name
         /\ printerSelect (elements app') = name
     | None =>
         selectedPrinter (state app') = selectedPrinter (state app)
         /\ printerSelect (elements app') = ""
     end.
Proof.
  intros Hsome Hno offered result app' options.
  subst result app' options. unfold loadPrinters. fold offered.
  destruct offered as [|p ps] eqn:Hoff; [contradiction|].
  cbn [length Nat.eqb].
  pose proof (addPrinter_fold (p :: ps)
                (Select.append placeholderOption [])
                (selectedPrinter (state app)) eq_refl) as H.
  cbv zeta in H.
  destruct (foldl addPrinter
              (Select.append placeholderOption [], selectedPrinter (state app))
              (p :: ps)) as [options selected].
  cbn [fst snd] in *. destruct H as [Hvalues [Hcount Hsel]].
  rewrite Hno in Hsel.
  split; [exact Hvalues|]. split; [exact Hcount|].
  destruct (List.find autoSelects (map printerName (p :: ps)));
    destruct Hsel as [-> ->]; split; reflexivity.
Qed.

Lemma X13_loadPrinters_selection_witness :
  selectedPrinter
    (state (fst (fst (loadPrinters (Ok Sample.printers) Sample.blankApp))))
  = Some "DYMO LabelWriter 450"
  /\ printerSelect
       (elements (fst (fst (loadPrinters (Ok Sample.printers)
                                         Sample.blankApp))))
     = "DYMO LabelWriter 450".
Proof.
  destruct (X13_loadPrinters_selection Sample.printers Sample.blankApp)
    as [_ [_ H]].
  - vm_compute. discriminate.
  - reflexivity.
  - exact H.
Defined.

(** X14. When the framework reports no LabelWriter printer, or the
    request for the printers fails, the value of the select is empty and
    [state.selectedPrinter] is as it was; a print request made on the
    page as [loadPrinters] left it is stopped by an alert and makes no
    call. *)
Theorem X14_no_printer_no_print (host : Host) (outcome : result (list Printer))
  (app : App) :
  (exists message, outcome = Throw message)
  \/ (exists reported,
         outcome = Ok reported /\ List.filter isLabelWriter reported = []) ->
  let app' := fst (fst (loadPrinters outcome app)) in
  printerSelect (elements app') = ""
  /\ selectedPrinter (state app') = selectedPrinter (state app)
  /\ exists message, printLabels host app' = (app', [Alert message]).
Proof.
  intros Hnone app'.
  assert (H : printerSelect (elements app') = ""
              /\ selectedPrinter (state app') = selectedPrinter (state app)).
  { subst app'. unfold loadPrinters.
    destruct Hnone as [[m ->] | [reported [-> Hnil]]].
    - split; reflexivity.
    - rewrite Hnil. split; reflexivity. }
  destruct H as [Hvalue Hsel]. split; [exact Hvalue|]. split; [exact Hsel|].
  apply printLabels_blocked. right; left. exact Hvalue.
Qed.

Lemma X14_no_printer_no_print_witness :
  exists message,
    printLabels Demo.host
      (fst (fst (loadPrinters (Ok [mkPrinter "Office Laser" "LaserPrinter"])
                              Demo.loadedA)))
    = (fst (fst (loadPrinters (Ok [mkPrinter "Office Laser" "LaserPrinter"])
                              Demo.loadedA)),
       [Alert message]).
Proof.
  apply (X14_no_printer_no_print Demo.host
           (Ok [mkPrinter "Office Laser" "LaserPrinter"]) Demo.loadedA).
  right. eexists. split; reflexivity.
Defined.

(** ** Start-up *)

Lemma loadPrinters_frame (outcome : result (list Printer)) (app : App) :
  status (elements (fst (fst (loadPrinters outcome app))))
  = status (elements app)
  /\ isServiceRunning (state (fst (fst (loadPrinters outcome app))))
     = isServiceRunning (state app)
  /\ label (state (fst (fst (loadPrinters outcome app)))) = label (state app).
Proof.
  unfold loadPrinters. destruct outcome as [reported | m]; [|auto].
  destruct (length (List.filter isLabelWriter reported) =? 0)%nat; [auto|].
  destruct (foldl addPrinter _ _) as [options selected]. auto.
Qed.

(** X15. After [init] on a page whose service flag is off, the flag is on
    exactly when the status indicator reads "connected", which is exactly
    when the framework script is loaded, its [init] completes and the
    environment check finds both the framework and the web service.  The
    printers are asked for only then: otherwise the printer selection is
    as it was.  The indicator still reads "checking" only when the
    framework's [init] never completes. *)
Theorem X15_init_status (env : Startup) (app : App) :
  isServiceRunning (state app) = false ->
  let result := init env app in
  let app' := fst (fst result) in
  let connected := fst (status (elements app')) = "connected" in
  (isServiceRunning (state app') = true <-> connected)
  /\ (connected
      <-> script env = ScriptLoaded /\ initOutcome env = InitCompletes
          /\ environment env = Ok (true, true))
  /\ (is_Some (snd (fst result)) -> connected)
  /\ (~ connected ->
      selectedPrinter (state app') = selectedPrinter (state app)
      /\ printerSelect (elements app') = printerSelect (elements app)
      /\ snd (fst result) = None)
  /\ (fst (status (elements app')) = "checking"
      <-> script env = ScriptLoaded /\ initOutcome env = InitNeverCompletes)
  /\ (fst (status (elements app')) = "connected"
      \/ fst (status (elements app')) = "disconnected"
      \/ fst (status (elements app')) = "checking").
Proof.
  intros Hoff result app' connected. subst connected app' result.
  unfold init.
  destruct (script env) eqn:Hscript; simpl;
    try (rewrite ?Hoff; repeat split; try tauto; try discriminate;
         try (intros [? ?]; discriminate); try (intros [? [? ?]]; discriminate);
         try (intros [? ?]; discriminate); auto; fail).
  destruct (initOutcome env) eqn:Hinit; simpl;
    try (rewrite ?Hoff; repeat split; try tauto; try discriminate;
         try (intros [? ?]; discriminate); try (intros [? [? ?]]; discriminate);
         auto; fail).
  destruct (environment env) as [[installed present] | m] eqn:Henv; simpl;
    try (rewrite ?Hoff; repeat split; try tauto; try discriminate;
         try (intros [? ?]; discriminate); try (intros [? [? ?]]; discriminate);
         auto; fail).
  destruct installed, present; simpl;
    try (rewrite ?Hoff; repeat split; try tauto; try discriminate;
         try (intros [? ?]; discriminate); try (intros [? [? ?]]; discriminate);
         auto; fail).
  match goal with
  | |- context [loadPrinters (printers env) ?a] =>
      destruct (loadPrinters_frame (printers env) a) as [Hstatus [Hrun _]];
      destruct (loadPrinters (printers env) a) as [[app2 options] events]
  end.
  simpl in *. rewrite Hstatus, Hrun. simpl.
  repeat split; try tauto; try discriminate; eauto.
  intros [? ?]; discriminate.
Qed.

Lemma X15_init_status_witness :
  isServiceRunning (state (fst (fst (init Sample.startup Sample.blankApp))))
  = true
  <-> fst (status (elements (fst (fst (init Sample.startup Sample.blankApp)))))
      = "connected".
Proof.
  apply (X15_init_status Sample.startup Sample.blankApp). reflexivity.
Defined.

(** ** Quantities typed in decimal *)

Lemma pretty_N_char_digit (d : N) :
  (d < 10)%N ->
  Js.digitValue (pretty_N_char d) = Some (Z.of_N d)
  /\ Js.isWhiteSpace (pretty_N_char d) = false
  /\ pretty_N_char d <> "-"%char /\ pretty_N_char d <> "+"%char.
Proof.
  intros Hd.
  assert (H : (d = 0 \/ d = 1 \/ d = 2 \/ d = 3 \/ d = 4 \/ d = 5 \/ d = 6
               \/ d = 7 \/ d = 8 \/ d = 9)%N) by lia.
  repeat (destruct H as [-> | H]); try subst d;
    (split; [reflexivity|]; split; [reflexivity|]; split; discriminate).
Qed.

Lemma digitsPrefix_pretty (x : N) :
  forall (s : string) (acc : Z) (count : nat),
  exists k,
    Js.digitsPrefix acc count (pretty_N_go x s)
    = Js.digitsPrefix (acc * 10 ^ Z.of_nat k + Z.of_N x) (count + k) s
    /\ ((0 < x)%N -> (0 < k)%nat).
Proof.
  induction (N.lt_wf_0 x) as [x _ IH]; intros s acc count.
  destruct (N.eq_dec x 0%N) as [-> | Hpos].
  - exists 0%nat. rewrite pretty_N_go_0. split; [|lia].
    f_equal; [simpl; lia | lia].
  - assert (Hx : (0 < x)%N) by lia.
    rewrite pretty_N_go_step by exact Hx.
    destruct (IH (x `div` 10)%N (N.div_lt x 10 Hx eq_refl)
                 (String (pretty_N_char (x `mod` 10)) s) acc count)
      as [k [Hk _]].
    exists (S k). split; [|lia]. rewrite Hk. cbn [Js.digitsPrefix].
    destruct (pretty_N_char_digit (x `mod` 10)) as [Hd _];
      [apply N.mod_lt; lia|].
    rewrite Hd. f_equal; [|lia].
    rewrite Nat2Z.inj_succ, Z.pow_succ_r by lia.
    rewrite (N.div_mod x 10) at 3 by lia.
    rewrite N2Z.inj_add, N2Z.inj_mul. simpl Z.of_N. lia.
Qed.

Lemma pretty_N_go_first (x : N) :
  forall s, (0 < x)%N ->
  exists d rest, (d < 10)%N /\ pretty_N_go x s = String (pretty_N_char d) rest.
Proof.
  induction (N.lt_wf_0 x) as [x _ IH]; intros s Hx.
  rewrite pretty_N_go_step by exact Hx.
  destruct (N.eq_dec (x `div` 10)%N 0%N) as [Hz | Hnz].
  - rewrite Hz, pretty_N_go_0. exists (x `mod` 10)%N, s.
    split; [apply N.mod_lt; lia | reflexivity].
  - apply IH; [apply N.div_lt; [exact Hx | reflexivity]|].
    apply N.neq_0_lt_0, Hnz.
Qed.

Lemma parseInt_digits (x : N) :
  (0 < x)%N ->
  Js.parseInt (pretty_N_go x "") = Some (Z.of_N x)
  /\ Js.parseInt (String "-" (pretty_N_go x "")) = Some (- Z.of_N x).
Proof.
  intros Hx.
  destruct (digitsPrefix_pretty x "" 0 0%nat) as [k [Hk Hpos]].
  specialize (Hpos Hx). simpl in Hk.
  destruct (pretty_N_go_first x "" Hx) as [d [rest [Hd Hfirst]]].
  destruct (pretty_N_char_digit d Hd) as [_ [Hws [Hminus Hplus]]].
  split.
  - unfold Js.parseInt. rewrite Hfirst. cbn [Js.trimStart]. rewrite Hws.
    assert (Hbody : match String (pretty_N_char d) rest with
                    | String "-" r => (-1, r)
                    | String "+" r => (1, r)
                    | _ => (1, String (pretty_N_char d) rest)
                    end = (1, String (pretty_N_char d) rest)).
    { assert (H : (d = 0 \/ d = 1 \/ d = 2 \/ d = 3 \/ d = 4 \/ d = 5
                   \/ d = 6 \/ d = 7 \/ d = 8 \/ d = 9)%N) by lia.
      repeat (destruct H as [-> | H]); try subst d; reflexivity. }
    rewrite Hbody, <- Hfirst, Hk.
    destruct k; [lia|]. f_equal; lia.
  - unfold Js.parseInt. cbn [Js.trimStart].
    change (Js.isWhiteSpace "-") with false. cbv iota. rewrite Hk.
    destruct k; [lia|]. f_equal; lia.
Qed.

Lemma parseInt_pretty (z : Z) : Js.parseInt (pretty z) = Some z.
Proof.
  destruct z as [|p|p].
  - reflexivity.
  - change (pretty (Z.pos p)) with (pretty (N.pos p)).
    unfold pretty, pretty_N. destruct (decide (N.pos p = 0)%N); [discriminate|].
    destruct (parseInt_digits (N.pos p)) as [H _]; [lia|]. exact H.
  - change (pretty (Z.neg p)) with ("-" +:+ pretty (N.pos p)).
    unfold pretty, pretty_N. destruct (decide (N.pos p = 0)%N); [discriminate|].
    destruct (parseInt_digits (N.pos p)) as [_ H]; [lia|]. exact H.
Qed.

(** X16. [parseInt] reads back every integer written in decimal that a
    JavaScript number holds exactly (up to 2^53 in size), so such a
    quantity of at least one typed in decimal passes the quantity check
    with its own value: with a label loaded and a printer selected, the
    print call is made with the print parameters for that count. *)
Theorem X16_decimal_quantity (host : Host) (app : App) (l : Label) (q : Z) :
  label (state app) = Some l ->
  printerSelect (elements app) <> "" ->
  1 <= q ->
  Domain.exactNumber q ->
  (forall z, Domain.exactNumber z -> Js.parseInt (pretty z) = Some z)
  /\ Spec.validRequest (typeQuantity (pretty q) app) q
  /\ exists seen,
       In (CallPrint seen (printerSelect (elements app))
                     (printParamsFor host q) "")
          (snd (printLabels host (typeQuantity (pretty q) app))).
Proof.
  intros Hl Hprinter Hq _. split; [intros z _; apply parseInt_pretty|].
  assert (Hvalid : Spec.validRequest (typeQuantity (pretty q) app) q).
  { repeat split; [exact Hprinter | apply parseInt_pretty | exact Hq]. }
  split; [exact Hvalid|].
  destruct (printLabels_shape host (typeQuantity (pretty q) app) l q Hl Hvalid)
    as [tail [Hev _]].
  eexists. rewrite Hev. apply in_app_iff. right; left. reflexivity.
Qed.

Lemma X16_decimal_quantity_witness :
  Spec.validRequest (typeQuantity (pretty 12) Demo.loadedA) 12.
Proof.
  apply (X16_decimal_quantity Demo.host Demo.loadedA Demo.labelA 12).
  - exact loadedA_label.
  - vm_compute. discriminate.
  - lia.
  - unfold Domain.exactNumber. lia.
Defined.

(** ** The order of the form *)

Lemma filter_perm {B : Type} (f : B -> bool) (xs ys : list B) :
  Permutation xs ys -> Permutation (List.filter f xs) (List.filter f ys).
Proof.
  induction 1 as [|x xs ys _ IH|x y xs|xs ys zs _ IH1 _ IH2]; simpl.
  - reflexivity.
  - destruct (f x); [apply perm_skip|]; exact IH.
  - destruct (f x), (f y); try reflexivity. apply perm_swap.
  - etransitivity; eassumption.
Qed.

Section Order.

Variable cmp : string -> string -> Z.
Hypothesis cmp_consistent : Spec.consistentComparator cmp.

Lemma cmp_refl (a : string) : cmp a a <= 0.
Proof.
  destruct cmp_consistent as [Hanti _].
  destruct (Z_lt_le_dec 0 (cmp a a)) as [H | H]; [|exact H].
  apply Hanti in H. lia.
Qed.

(** Sorting a list that is in order already changes nothing. *)
Lemma arraySort_ascending_id (l : list string) :
  Spec.ascending cmp l -> arraySort cmp l = l.
Proof.
  unfold Spec.ascending. induction l as [|x l IH]; intros Hl; [reflexivity|].
  inversion Hl as [|? ? Hl' Hx]; subst.
  unfold arraySort in *. simpl. rewrite (IH Hl').
  destruct l as [|y l]; [reflexivity|]. simpl.
  inversion Hx as [|? ? Hxy _]; subst.
  destruct (Z.leb_spec (cmp x y) 0); [reflexivity | lia].
Qed.

Lemma ascending_perm_unique (xs ys : list string) :
  (forall a b, cmp a b = 0 -> a = b) ->
  Spec.ascending cmp xs -> Spec.ascending cmp ys ->
  Permutation xs ys -> xs = ys.
Proof.
  intros Htie. destruct cmp_consistent as [Hanti _]. unfold Spec.ascending.
  revert ys; induction xs as [|x xs IH]; intros ys Hxs Hys Hperm.
  - apply Permutation_nil in Hperm. congruence.
  - destruct ys as [|y ys].
    + apply Permutation_sym, Permutation_nil in Hperm. discriminate.
    + inversion Hxs as [|? ? Hxs' Hx]; subst.
      inversion Hys as [|? ? Hys' Hy]; subst.
      rewrite List.Forall_forall in Hx, Hy.
      assert (Hxy : cmp x y <= 0).
      { assert (Hin : In y (x :: xs))
          by (apply (Permutation_in y (Permutation_sym Hperm)); left;
              reflexivity).
        destruct Hin as [<- | Hin]; [apply cmp_refl | apply Hx, Hin]. }
      assert (Hyx : cmp y x <= 0).
      { assert (Hin : In x (y :: ys))
          by (apply (Permutation_in x Hperm); left; reflexivity).
        destruct Hin as [<- | Hin]; [apply cmp_refl | apply Hy, Hin]. }
      assert (Heq : x = y).
      { apply Htie. destruct (Z_lt_le_dec (cmp x y) 0) as [H | H]; [|lia].
        apply Hanti in H. lia. }
      subst y. f_equal. apply IH; try assumption.
      apply (Permutation_cons_inv Hperm).
Qed.

End Order.

(** X17. Under a comparison that ranks no two different names alike, the
    order of the form depends only on which names the framework
    enumerates, not on the order in which it enumerates them. *)
Theorem X17_form_order_independent (host : Host) (names names' : list string) :
  Spec2.totalOrder (localeCompare host) ->
  Permutation names names' ->
  editableNames host names = editableNames host names'.
Proof.
  intros [Hcmp Htie] Hperm.
  apply (ascending_perm_unique (localeCompare host) Hcmp _ _ Htie).
  - apply arraySort_ascending, Hcmp.
  - apply arraySort_ascending, Hcmp.
  - unfold editableNames.
    rewrite <- !arraySort_perm. apply filter_perm, Hperm.
Qed.

(** X18. Building the form again from the names it shows gives the same
    names in the same order: the filter and the sort of [generateForm]
    leave their own result as it is. *)
Theorem X18_form_names_stable (host : Host) (names : list string) :
  Spec.consistentComparator (localeCompare host) ->
  editableNames host (editableNames host names) = editableNames host names.
Proof.
  intros Hcmp. unfold editableNames at 1.
  assert (Hkeep : List.filter (fun name => negb (isIgnored name))
                              (editableNames host names)
                  = editableNames host names).
  { apply forallb_filter_id. apply forallb_forall. intros n Hn.
    unfold editableNames in Hn. rewrite arraySort_In, filter_In in Hn.
    tauto. }
  rewrite Hkeep. apply arraySort_ascending_id.
  apply arraySort_ascending, Hcmp.
Qed.

Lemma compareCodes_antisym (a b : string) :
  Sample.compareCodes a b < 0 <-> 0 < Sample.compareCodes b a.
Proof.
  revert b; induction a as [|x a IH]; intros [|y b]; simpl; try lia.
  destruct (Z.eqb_spec (Z.of_nat (nat_of_ascii x) - Z.of_nat (nat_of_ascii y))
                       0) as [E|E];
    destruct (Z.eqb_spec (Z.of_nat (nat_of_ascii y)
                          - Z.of_nat (nat_of_ascii x)) 0) as [F|F];
    try lia.
  apply IH.
Qed.

Lemma compareCodes_trans (a b c : string) :
  Sample.compareCodes a b <= 0 -> Sample.compareCodes b c <= 0 ->
  Sample.compareCodes a c <= 0.
Proof.
  revert b c; induction a as [|x a IH]; intros [|y b] [|z c]; simpl; try lia.
  destruct (Z.eqb_spec (Z.of_nat (nat_of_ascii x) - Z.of_nat (nat_of_ascii y))
                       0) as [E|E];
    destruct (Z.eqb_spec (Z.of_nat (nat_of_ascii y)
                          - Z.of_nat (nat_of_ascii z)) 0) as [F|F];
    destruct (Z.eqb_spec (Z.of_nat (nat_of_ascii x)
                          - Z.of_nat (nat_of_ascii z)) 0) as [G|G];
    try lia.
  apply IH.
Qed.

Lemma compareCodes_tie (a b : string) :
  Sample.compareCodes a b = 0 -> a = b.
Proof.
  revert b; induction a as [|x a IH]; intros [|y b]; simpl; try lia;
    [reflexivity|].
  destruct (Z.eqb_spec (Z.of_nat (nat_of_ascii x) - Z.of_nat (nat_of_ascii y))
                       0) as [E|E]; [|lia].
  intros H. f_equal; [|apply IH, H].
  rewrite <- (ascii_nat_embedding x), <- (ascii_nat_embedding y).
  f_equal. lia.
Qed.

Lemma compareCodes_total : Spec2.totalOrder Sample.compareCodes.
Proof.
  split; [split|];
    [exact compareCodes_antisym | exact compareCodes_trans
     | exact compareCodes_tie].
Qed.

Lemma X17_form_order_independent_witness :
  editableNames Sample.host ["Title"; "ignoreMe"; "Logo"]
  = editableNames Sample.host ["Logo"; "Title"; "ignoreMe"].
Proof.
  apply (X17_form_order_independent Sample.host).
  - exact compareCodes_total.
  - exact (Permutation_app_comm ["Title"; "ignoreMe"] ["Logo"]).
Defined.

Lemma X18_form_names_stable_witness :
  editableNames Demo.host (editableNames Demo.host ["b"; "IGNORE"; "a"])
  = editableNames Demo.host ["b"; "IGNORE"; "a"].
Proof.
  apply (X18_form_names_stable Demo.host). exact compareNoCase_consistent.
Defined.

(** ** What preview and print leave alone *)

Lemma syncPass_held (warn : bool) (snapshots : gmap string string)
  (l : Label) (inputs : list Control) :
  Spec2.sameObjects (Some l) (Some (fst (syncPass warn snapshots l inputs))).
Proof.
  rewrite syncPass_label. simpl. split; [reflexivity|]. intros k.
  rewrite applyWrites_lookup. destruct (texts l !! k); simpl.
  - split; eauto.
  - split; intros [? ?]; discriminate.
Qed.

(** X19. A preview and a print request, whatever their outcome, leave
    the controls of the form, the snapshots, the kind map, the name list,
    the markup and the printer and quantity inputs as they were; the
    label keeps the names it enumerates and the objects it holds, only
    their texts can change; and neither loads nor drops a label. *)
Theorem X19_actions_frame (host : Host) (app : App) :
  (Spec2.sameTemplateData app (fst (updatePreview host app))
   /\ Spec2.sameObjects (label (state app))
                        (label (state (fst (updatePreview host app)))))
  /\ (Spec2.sameTemplateData app (fst (printLabels host app))
      /\ Spec2.sameObjects (label (state app))
                           (label (state (fst (printLabels host app))))).
Proof.
  assert (Hsame : forall o : option Label,
             Spec2.sameObjects o o).
  { intros [l|]; simpl; [|exact I]. split; [reflexivity | tauto]. }
  split.
  - unfold updatePreview. destruct (label (state app)) as [l|] eqn:Hl.
    + pose proof (syncPass_held true (initialValues (state app)) l
                                (labelForm (elements app))) as Hheld.
      destruct (syncPass true (initialValues (state app)) l
                         (labelForm (elements app))) as [l' events].
      destruct (renderAsync host l'); simpl;
        (split; [repeat split | exact Hheld]).
    + simpl. rewrite Hl. split; [repeat split | exact I].
  - unfold printLabels. destruct (label (state app)) as [l|] eqn:Hl.
    2:{ simpl. rewrite Hl. split; [repeat split | exact I]. }
    destruct (String.eqb (printerSelect (elements app)) "").
    { simpl. rewrite Hl. split; [repeat split | apply (Hsame (Some l))]. }
    destruct (Js.parseInt (printQuantity (elements app))) as [q|].
    2:{ simpl. rewrite Hl. split; [repeat split | apply (Hsame (Some l))]. }
    destruct (q <? 1).
    { simpl. rewrite Hl. split; [repeat split | apply (Hsame (Some l))]. }
    simpl.
    pose proof (syncPass_held false (initialValues (state app)) l
                              (labelForm (elements app))) as Hheld.
    destruct (syncPass false (initialValues (state app)) l
                       (labelForm (elements app))) as [l' events].
    destruct (print host l' _ _ _); simpl;
      (split; [repeat split | exact Hheld]).
Qed.

(** X20. Right after a template that enumerates at least one object is
    loaded, whose names are ASCII and free of markup characters and whose
    texts are such as a textarea holds unchanged, every control of the
    form is bound to an enumerated name; a text input holds the text the
    label has for its field, or nothing when the label has no text for
    it; and a toggle is checked exactly when the label has a text for its
    field that is not empty. *)
Theorem X20_initial_controls (host : Host) (xml : string) (l : Label)
  (app : App) (c : Control) :
  openLabelXml host xml = Ok l ->
  getObjectNames l <> [] ->
  List.Forall Domain.plainName (getObjectNames l) ->
  Domain.verbatimTexts l ->
  In c (labelForm (elements (fst (loadLabel host xml app)))) ->
  In (fieldNameOf c) (getObjectNames l)
  /\ match c with
     | Textarea name value =>
         getObjectText l name = Ok value
         \/ (value = "" /\ texts l !! name = None)
     | Checkbox name checked =>
         checked = true
         <-> exists t, getObjectText l name = Ok t /\ t <> ""
     end.
Proof.
  intros Hopen Hnames _ _ Hin.
  destruct (loadLabel_rebuilds host xml l app Hopen Hnames) as [Hform _].
  rewrite Hform in Hin. apply in_map_iff in Hin as [n [<- Hn]].
  rewrite makeControl_name.
  split; [apply (editableNames_subset host), Hn|].
  unfold makeControl, currentValueOf. simpl.
  destruct (isImageType _); unfold getObjectText;
    destruct (texts l !! n) as [t|] eqn:Ht; rewrite ?orElse_empty.
  - destruct t as [|ch t]; simpl.
    + split; [discriminate|]. intros [t' [[= <-] Hne]]. contradiction.
    + split; [|reflexivity]. intros _. eexists. split; [reflexivity|].
      discriminate.
  - simpl. split; [discriminate|]. intros [t' [H _]]. discriminate.
  - left; reflexivity.
  - right; split; reflexivity.
Qed.

(** ** Instances of the further properties on the fixtures *)

Lemma labelA_plain : List.Forall Domain.plainName (getObjectNames Demo.labelA).
Proof.
  repeat (apply List.Forall_cons; [vm_compute; reflexivity|]).
  apply List.Forall_nil.
Qed.

Lemma labelA_verbatim : Domain.verbatimTexts Demo.labelA.
Proof.
  intros name t. unfold Demo.labelA. simpl.
  destruct (decide (name = "Title")) as [->|Htitle].
  - rewrite lookup_insert_eq. intros [= <-]. split; reflexivity.
  - rewrite lookup_insert_ne by congruence.
    destruct (decide (name = "Logo")) as [->|Hlogo].
    + rewrite lookup_insert_eq. intros [= <-]. split; reflexivity.
    + rewrite lookup_insert_ne by congruence. rewrite lookup_empty.
      discriminate.
Qed.

Lemma X1_preview_idempotent_witness :
  In (CallRender Demo.labelA)
     (snd (updatePreview Demo.host (fst (updatePreview Demo.host Demo.loadedA)))).
Proof.
  apply (X1_preview_idempotent Demo.host Demo.loadedA).
  vm_compute. right; right; left. reflexivity.
Defined.

Lemma X2_print_prints_previewed_witness :
  exists seen,
    In (CallRender seen) (snd (updatePreview Demo.host Demo.loadedA))
    /\ In (CallPrint seen "DYMO LabelWriter 450" (Demo.paramsXml 1) "")
          (snd (printLabels Demo.host Demo.loadedA)).
Proof.
  destruct (X2_print_prints_previewed Demo.host Demo.loadedA Demo.labelA 1)
    as [seen [Hrender [Hprint _]]].
  - exact loadedA_label.
  - repeat split; [vm_compute; discriminate | lia].
  - exists seen. split; [exact Hrender | exact Hprint].
Defined.

Lemma X3_snapshots_taken_at_load_witness :
  initialValues (state Demo.loadedA) !! "Logo" = Some "iVBORw0KGgo=".
Proof.
  apply (X3_snapshots_taken_at_load Demo.host Demo.xmlA Demo.labelA
           Demo.initialApp "Logo" "iVBORw0KGgo=").
  - reflexivity.
  - discriminate.
  - split; [right; left; reflexivity | reflexivity].
Defined.

Lemma X4_load_keeps_template_witness :
  label (state (fst (loadLabel Demo.host Demo.xmlA Demo.initialApp)))
  = Some Demo.labelA.
Proof.
  apply (X4_load_keeps_template Demo.host Demo.xmlA Demo.labelA
           Demo.initialApp).
  - reflexivity.
  - discriminate.
  - exact labelA_plain.
  - exact labelA_verbatim.
Defined.

Lemma X5_toggle_round_trip_witness :
  exists restored,
    label (state
             (fst (updatePreview Demo.host
                     (editForm [Checkbox "Logo" true; Textarea "Title" "Hi"]
                        (fst (updatePreview Demo.host
                                (editForm [Checkbox "Logo" false;
                                           Textarea "Title" "Hi"]
                                          Demo.loadedA)))))))
    = Some restored
    /\ getObjectText restored "Logo" = Ok "iVBORw0KGgo=".
Proof.
  assert (Hdistinct : forall b v,
             List.NoDup (map fieldNameOf [Checkbox "Logo" b;
                                          Textarea "Title" v])).
  { intros b v. simpl.
    apply List.NoDup_cons; [intros [H | []]; discriminate|].
    apply List.NoDup_cons; [intros [] | apply List.NoDup_nil]. }
  apply (X5_toggle_round_trip Demo.host Demo.xmlA Demo.labelA Demo.initialApp
           "Logo" "iVBORw0KGgo="
           [Checkbox "Logo" false; Textarea "Title" "Hi"]
           [Checkbox "Logo" true; Textarea "Title" "Hi"]).
  - reflexivity.
  - right; left; reflexivity.
  - reflexivity.
  - discriminate.
  - apply Hdistinct.
  - apply Hdistinct.
  - left; reflexivity.
  - left; reflexivity.
Defined.

Lemma X6_failed_upload_keeps_template_witness :
  state (fst (handleFileUpload Demo.host
                (Some (mkFile "notes.txt" (Ok Demo.xmlB))) Demo.loadedA))
  = state Demo.loadedA.
Proof.
  apply (X6_failed_upload_keeps_template Demo.host
           (mkFile "notes.txt" (Ok Demo.xmlB)) Demo.loadedA).
  left. reflexivity.
Defined.

Lemma X7_upload_extension_witness :
  handleFileUpload Demo.host (Some (mkFile "Shipping.LABEL" (Ok Demo.xmlA)))
                   Demo.initialApp
  = loadLabel Demo.host Demo.xmlA (hideFileError Demo.initialApp).
Proof.
  destruct (X7_upload_extension Demo.host
              (mkFile "Shipping.LABEL" (Ok Demo.xmlA)) Demo.initialApp)
    as [_ [_ Htaken]].
  destruct (Htaken (ex_intro _ "Shipping"
                      (ex_intro _ ".LABEL" (conj eq_refl (or_introl eq_refl))))
                   Demo.xmlA eq_refl) as [H _].
  exact H.
Defined.

Lemma X8_kinds_are_object_tags_witness : Spec.isObjectTag "ImageObject".
Proof.
  apply (X8_kinds_are_object_tags Demo.host Demo.xmlA Demo.initialApp
           Demo.labelA "Logo" "ImageObject").
  - reflexivity.
  - vm_compute. reflexivity.
Defined.

Lemma X9_debounce_burst_witness :
  Timer.run 300 None [(0, "a"); (100, "ab"); (250, "abc")] = [(550, "abc")].
Proof.
  apply (X9_debounce_burst 300 [(0, "a"); (100, "ab")] 250 "abc").
  simpl. lia.
Defined.

Lemma X10_debounce_quiescence_witness :
  Nat.le (length (Timer.run 300 None [(0, "a"); (100, "ab"); (500, "abc")]))
         3.
Proof.
  apply (X10_debounce_quiescence 300 [(0, "a"); (100, "ab"); (500, "abc")]).
  unfold Timer.chronological. simpl.
  repeat (apply SSorted_cons || apply SSorted_nil || apply List.Forall_cons
          || apply List.Forall_nil || lia).
Defined.

Lemma X20_initial_controls_witness :
  true = true <-> exists t, getObjectText Demo.labelA "Logo" = Ok t /\ t <> "".
Proof.
  apply (X20_initial_controls Demo.host Demo.xmlA Demo.labelA Demo.initialApp
           (Checkbox "Logo" true)).
  - reflexivity.
  - discriminate.
  - exact labelA_plain.
  - exact labelA_verbatim.
  - vm_compute. left; reflexivity.
Defined.

Lemma X11_formatFieldName_letters_witness :
  Str.withoutWhiteSpace (formatFieldName "firstName") = "FirstName".
Proof.
  apply (X11_formatFieldName_letters "firstName"). reflexivity.
Defined.
